(** * Ozon -> Telegram notifier: the reconciliation engine, embedded in Rocq

    Shallow embedding of [src/index.js] and [src/main.js] (two near-duplicate
    implementations of the same notifier) and the properties of the
    specification checked against them.

    Modelling conventions, fixed once for the whole development:

    - JavaScript values are the inductive [value] (JSON payloads plus
      [undefined]); property access, truthiness, [||], [??], [===] follow
      ECMAScript on that type.  An object is the list of its properties in
      the order they are enumerated, and no payload object shadows
      [toString], [valueOf] or [toJSON].  Two objects or arrays are never
      [===]: every comparison in the sources is between values coming from
      different payloads (or from the database), hence different
      references.
    - Numbers are exact decimals [m / 10^s] together with [NaN] and the two
      infinities: IEEE-754 binary rounding, overflow and the sign of zero are
      abstracted away.  [toFixed] rounds half away from zero on the exact
      value, as ECMAScript defines it.
    - Strings are sequences of bytes read as UTF-8.  [toLowerCase] covers
      ASCII and the basic Cyrillic block (the default patterns are Cyrillic);
      the default sort compares bytes (it agrees with the UTF-16 code unit
      order except between supplementary and high BMP characters).
    - A computation that can raise returns [result]; the network is an oracle
      [ozon] from request to response-or-failure; the database is a keyed
      table holding the staged rows as they are (column affinities and bind
      errors of the driver are not modelled); notifications are recorded, in
      order, as the arguments of the message builders. *)

From Stdlib Require Import ZArith List String Ascii Bool Lia Arith.
From Stdlib Require Import DecimalString Permutation.
Import ListNotations.

Local Open Scope string_scope.
Local Open Scope Z_scope.

(* ================================================================== *)
(** ** Errors *)

Inductive error : Type :=
| TypeError
| FetchFailed (status : Z).

Inductive result (A : Type) : Type :=
| Ok (a : A)
| Raise (e : error).
Arguments Ok {A} a.
Arguments Raise {A} e.

Definition rbind {A B : Type} (c : result A) (k : A -> result B) : result B :=
  match c with
  | Ok a => k a
  | Raise e => Raise e
  end.

Notation "'let*' x ':=' c 'in' k" := (rbind c (fun x => k))
  (at level 10, x name, c at level 100, k at level 200).

(* ================================================================== *)
(** ** Numbers *)

(** [Fin m s] is the number [m / 10^s]. *)
Inductive num : Type :=
| NaN
| PosInf
| NegInf
| Fin (m : Z) (s : nat).

Definition pow10 (n : nat) : Z := 10 ^ Z.of_nat n.

Definition isFinite (x : num) : bool :=
  match x with
  | Fin _ _ => true
  | _ => false
  end.

(** Numeric equality ([===] on two numbers). *)
Definition num_eqb (x y : num) : bool :=
  match x, y with
  | Fin m1 s1, Fin m2 s2 => m1 * pow10 s2 =? m2 * pow10 s1
  | PosInf, PosInf => true
  | NegInf, NegInf => true
  | _, _ => false
  end.

Definition num_is_zero (x : num) : bool :=
  match x with
  | Fin m _ => m =? 0
  | _ => false
  end.

(** [x * k] for an integer literal [k] ([x * 10], [x * 1000]). *)
Definition num_mul (x : num) (k : Z) : num :=
  match x with
  | Fin m s => Fin (m * k) s
  | NaN => NaN
  | PosInf => if k =? 0 then NaN else if 0 <? k then PosInf else NegInf
  | NegInf => if k =? 0 then NaN else if 0 <? k then NegInf else PosInf
  end.

(** [+x.toFixed(f)]: the decimal with [f] fraction digits nearest to [x]
    (ties: the larger magnitude), read back as a number. *)
Definition toFixed (f : nat) (x : num) : num :=
  match x with
  | Fin m s =>
      let n := (2 * Z.abs m * pow10 f + pow10 s) / (2 * pow10 s) in
      Fin (Z.sgn m * n) f
  | other => other
  end.



(** Trailing zeros of the fraction removed: the canonical [(m, s)]. *)
Fixpoint strip (m : Z) (s : nat) : Z * nat :=
  match s with
  | O => (m, O)
  | S s' => if m mod 10 =? 0 then strip (m / 10) s' else (m, s)
  end.

(** Trailing zeros of a positive integer: [n = fst * 10^snd]. *)
Fixpoint strip_int (fuel : nat) (n : Z) : Z * nat :=
  match fuel with
  | O => (n, O)
  | S fuel' =>
      if (n mod 10 =? 0) && negb (n =? 0)
      then let '(d, t) := strip_int fuel' (n / 10) in (d, S t)
      else (n, O)
  end.

Definition digits_of (n : Z) : string :=
  NilZero.string_of_uint (N.to_uint (Z.to_N n)).

Fixpoint zeros (n : nat) : string :=
  match n with
  | O => EmptyString
  | S n' => String "0" (zeros n')
  end.

Fixpoint str_take (n : nat) (s : string) : string :=
  match n, s with
  | S n', String c s' => String c (str_take n' s')
  | _, _ => EmptyString
  end.

Fixpoint str_drop (n : nat) (s : string) : string :=
  match n, s with
  | S n', String _ s' => str_drop n' s'
  | _, _ => s
  end.

(** Number::toString (radix 10) of a positive [m / 10^s]. *)
Definition pos_to_string (m : Z) (s : nat) : string :=
  let '(m1, s1) := strip m s in
  let '(d, t) := strip_int (Z.to_nat (Z.log2 m1) + 1) m1 in
  let ds := digits_of d in
  let k := Z.of_nat (String.length ds) in
  let n := k + Z.of_nat t - Z.of_nat s1 in
  if (k <=? n) && (n <=? 21) then
    ds ++ zeros (Z.to_nat (n - k))
  else if (0 <? n) && (n <=? 21) then
    str_take (Z.to_nat n) ds ++ "." ++ str_drop (Z.to_nat n) ds
  else if (-6 <? n) && (n <=? 0) then
    "0." ++ zeros (Z.to_nat (- n)) ++ ds
  else
    let e := n - 1 in
    let es := (if e <? 0 then "-" else "+") ++ digits_of (Z.abs e) in
    if k =? 1 then ds ++ "e" ++ es
    else str_take 1 ds ++ "." ++ str_drop 1 ds ++ "e" ++ es.

Definition num_to_string (x : num) : string :=
  match x with
  | NaN => "NaN"
  | PosInf => "Infinity"
  | NegInf => "-Infinity"
  | Fin m s =>
      if m =? 0 then "0"
      else if m <? 0 then "-" ++ pos_to_string (- m) s
      else pos_to_string m s
  end.

(* ================================================================== *)
(** ** Strings *)

Definition code (c : ascii) : N := N_of_ascii c.

Definition lower_ascii (c : ascii) : ascii :=
  if (65 <=? code c)%N && (code c <=? 90)%N
  then ascii_of_N (code c + 32) else c.

(** [String.prototype.toLowerCase] on UTF-8 bytes: ASCII letters, and the
    two-byte sequences of U+0400..U+042F (lead byte 0xD0), whose lower-case
    forms are U+0450..U+045F and U+0430..U+044F. *)
Fixpoint toLowerCase (s : string) : string :=
  match s with
  | EmptyString => EmptyString
  | String c rest =>
      match rest with
      | String d rest' =>
          if (code c =? 208)%N && (128 <=? code d)%N && (code d <=? 143)%N
          then String (ascii_of_N 209) (String (ascii_of_N (code d + 16)) (toLowerCase rest'))
          else if (code c =? 208)%N && (144 <=? code d)%N && (code d <=? 159)%N
          then String c (String (ascii_of_N (code d + 32)) (toLowerCase rest'))
          else if (code c =? 208)%N && (160 <=? code d)%N && (code d <=? 175)%N
          then String (ascii_of_N 209) (String (ascii_of_N (code d - 32)) (toLowerCase rest'))
          else String (lower_ascii c) (toLowerCase rest)
      | EmptyString => String (lower_ascii c) EmptyString
      end
  end.

Fixpoint prefixb (p s : string) : bool :=
  match p, s with
  | EmptyString, _ => true
  | String a p', String b s' => Ascii.eqb a b && prefixb p' s'
  | String _ _, EmptyString => false
  end.

(** [s.includes(p)]. *)
Fixpoint includes (s p : string) : bool :=
  prefixb p s ||
  match s with
  | EmptyString => false
  | String _ s' => includes s' p
  end.

(** [a < b] on strings, unit by unit. *)
Fixpoint str_ltb (a b : string) : bool :=
  match a, b with
  | _, EmptyString => false
  | EmptyString, String _ _ => true
  | String x a', String y b' =>
      if (code x <? code y)%N then true
      else if (code y <? code x)%N then false
      else str_ltb a' b'
  end.

(** [s.length]: UTF-16 code units of a UTF-8 byte sequence (one per scalar
    value, two for a four-byte sequence). *)
Fixpoint utf16_length (s : string) : Z :=
  match s with
  | EmptyString => 0
  | String c rest =>
      (if (128 <=? code c)%N && (code c <? 192)%N then 0
       else if (240 <=? code c)%N then 2 else 1) + utf16_length rest
  end.

Fixpoint join (sep : string) (l : list string) : string :=
  match l with
  | [] => EmptyString
  | [x] => x
  | x :: rest => x ++ sep ++ join sep rest
  end.

(** *** StringToNumber: ASCII white space, sign, [Infinity], decimal literals
    with fraction and exponent.  Hexadecimal, octal and binary literals are
    read as [NaN]. *)

Definition is_space (c : ascii) : bool :=
  let n := code c in
  ((n =? 32) || (n =? 9) || (n =? 10) || (n =? 11) || (n =? 12) || (n =? 13))%N.

Definition is_digit (c : ascii) : bool :=
  ((48 <=? code c) && (code c <=? 57))%N.

Fixpoint trim_start (s : string) : string :=
  match s with
  | String c rest => if is_space c then trim_start rest else s
  | EmptyString => s
  end.

Fixpoint rev_string (acc s : string) : string :=
  match s with
  | EmptyString => acc
  | String c rest => rev_string (String c acc) rest
  end.

Definition trim (s : string) : string :=
  rev_string "" (trim_start (rev_string "" (trim_start s))).

(** The leading digits of [s] as a number, how many there were, and the rest. *)
Fixpoint read_digits (acc : Z) (cnt : nat) (s : string) : Z * nat * string :=
  match s with
  | String c rest =>
      if is_digit c
      then read_digits (acc * 10 + Z.of_N (code c - 48)) (S cnt) rest
      else (acc, cnt, s)
  | EmptyString => (acc, cnt, s)
  end.

Definition read_sign (s : string) : bool * string :=
  match s with
  | String "-" rest => (true, rest)
  | String "+" rest => (false, rest)
  | _ => (false, s)
  end.

Definition read_exponent (s : string) : option Z :=
  match s with
  | EmptyString => Some 0
  | String c rest =>
      if (Ascii.eqb c "e" || Ascii.eqb c "E")%bool then
        let '(neg, rest1) := read_sign rest in
        match read_digits 0 0 rest1 with
        | (_, O, _) => None
        | (e, S _, EmptyString) => Some (if neg then - e else e)
        | (_, S _, String _ _) => None
        end
      else None
  end.

Definition StringToNumber (s : string) : num :=
  let t := trim s in
  match t with
  | EmptyString => Fin 0 0
  | _ =>
      let '(neg, body) := read_sign t in
      if String.eqb body "Infinity" then (if neg then NegInf else PosInf)
      else
        let '(ip, ni, rest) := read_digits 0 0 body in
        let '(m, nf, rest2) :=
          match rest with
          | String "." after => read_digits ip 0 after
          | _ => (ip, O, rest)
          end in
        match (ni + nf)%nat, read_exponent rest2 with
        | O, _ => NaN
        | _, None => NaN
        | _, Some e =>
            let m' := if neg then - m else m in
            if 0 <=? e then Fin (m' * 10 ^ e) nf
            else Fin m' (nf + Z.to_nat (- e))
        end
  end.

(* ================================================================== *)
(** ** Values *)

Set Warnings "-register-all".

(** The values of JSON, [undefined], and [VFun]: the one value met in a
    payload that is not data, the method [values] that every array inherits
    (which is what [a.values] is when [a] is an array). *)
Inductive value : Type :=
| VUndef
| VNull
| VBool (b : bool)
| VNum (n : num)
| VStr (s : string)
| VArr (items : list value)
| VObj (fields : list (string * value))
| VFun.

Definition VInt (z : Z) : value := VNum (Fin z 0).

(** [v == null]. *)
Definition nullish (v : value) : bool :=
  match v with
  | VUndef | VNull => true
  | _ => false
  end.

(** ToBoolean. *)
Definition truthy (v : value) : bool :=
  match v with
  | VUndef | VNull => false
  | VBool b => b
  | VNum NaN => false
  | VNum x => negb (num_is_zero x)
  | VStr s => negb (String.eqb s "")
  | VArr _ | VObj _ | VFun => true
  end.

(** [a || b] and [a ?? b]. *)
Definition or_else (a b : value) : value := if truthy a then a else b.
Definition coalesce (a b : value) : value := if nullish a then b else a.

Infix "|||" := or_else (at level 50, left associativity).
Infix "???" := coalesce (at level 50, left associativity).

Fixpoint lookup_field (fs : list (string * value)) (k : string) : value :=
  match fs with
  | [] => VUndef
  | (k', v) :: rest => if String.eqb k' k then v else lookup_field rest k
  end.

(** [v?.k], for the property names the sources use: own properties of
    objects; [length] of arrays and strings; the method [values] of arrays,
    its [name] and its [length]; [undefined] on anything else, [null] and
    [undefined] included. *)
Definition oget (v : value) (k : string) : value :=
  match v with
  | VObj fs => lookup_field fs k
  | VArr l =>
      if String.eqb k "length" then VInt (Z.of_nat (List.length l))
      else if String.eqb k "values" then VFun
      else VUndef
  | VStr s => if String.eqb k "length" then VInt (utf16_length s) else VUndef
  | VFun =>
      if String.eqb k "name" then VStr "values"
      else if String.eqb k "length" then VInt 0
      else VUndef
  | _ => VUndef
  end.

(** [v.k]: raises on [null] and [undefined]. *)
Definition get (v : value) (k : string) : result value :=
  if nullish v then Raise TypeError else Ok (oget v k).

(** [a === b]. *)
Definition strict_eq (a b : value) : bool :=
  match a, b with
  | VUndef, VUndef => true
  | VNull, VNull => true
  | VBool x, VBool y => Bool.eqb x y
  | VNum x, VNum y => num_eqb x y
  | VStr x, VStr y => String.eqb x y
  | VFun, VFun => true
  | _, _ => false
  end.

(** SameValueZero, the key equality of [Map]: [===] with [NaN] equal to
    itself. *)
Definition same_value_zero (a b : value) : bool :=
  match a, b with
  | VNum NaN, VNum NaN => true
  | _, _ => strict_eq a b
  end.

(** ToString. *)
Fixpoint to_string (v : value) : string :=
  match v with
  | VUndef => "undefined"
  | VNull => "null"
  | VBool true => "true"
  | VBool false => "false"
  | VNum x => num_to_string x
  | VStr s => s
  | VArr l =>
      join "," (map (fun x => if nullish x then "" else to_string x) l)
  | VObj _ => "[object Object]"
  | VFun => "function values() { [native code] }"
  end.

(** [Number(v)]. *)
Definition Number (v : value) : num :=
  match v with
  | VUndef => NaN
  | VNull => Fin 0 0
  | VBool true => Fin 1 0
  | VBool false => Fin 0 0
  | VNum x => x
  | VStr s => StringToNumber s
  | VArr _ => StringToNumber (to_string v)
  | VObj _ | VFun => NaN
  end.

(** [v.toLowerCase()]: only strings have the method. *)
Definition call_toLowerCase (v : value) : result string :=
  match v with
  | VStr s => Ok (toLowerCase s)
  | _ => Raise TypeError
  end.

(** What [for .. of] and spread iterate: the items of an array, the
    characters of a string; anything else is not iterable. *)
Definition iterate (v : value) : result (list value) :=
  match v with
  | VArr l => Ok l
  | VStr s => Ok (map (fun c => VStr (String c "")) (list_ascii_of_string s))
  | _ => Raise TypeError
  end.

(** The receiver of [.map]: arrays only. *)
Definition as_array (v : value) : result (list value) :=
  match v with
  | VArr l => Ok l
  | _ => Raise TypeError
  end.

(* ================================================================== *)
(** ** JSON.stringify *)

Definition hex_digit (n : N) : ascii :=
  if (n <? 10)%N then ascii_of_N (48 + n) else ascii_of_N (87 + n).

Fixpoint json_escape (s : string) : string :=
  match s with
  | EmptyString => EmptyString
  | String c rest =>
      let n := code c in
      (if (n =? 34)%N then "\" ++ String c ""
       else if (n =? 92)%N then "\\"
       else if (n =? 8)%N then "\b"
       else if (n =? 9)%N then "\t"
       else if (n =? 10)%N then "\n"
       else if (n =? 12)%N then "\f"
       else if (n =? 13)%N then "\r"
       else if (n <? 32)%N then
         "\u00" ++ String (hex_digit (n / 16)) (String (hex_digit (n mod 16)) "")
       else String c "") ++ json_escape rest
  end.

Definition json_quote (s : string) : string :=
  String (ascii_of_N 34) (json_escape s) ++ String (ascii_of_N 34) "".

(** The properties of an object, as [JSON.stringify] writes them with [f]
    for the values: a property that is [undefined] or a function is left
    out. *)
Definition json_props (f : value -> string) (fs : list (string * value)) : list string :=
  flat_map
    (fun kv =>
       let '(k, x) := kv in
       match x with
       | VUndef | VFun => []
       | _ => [json_quote k ++ ":" ++ f x]
       end) fs.

(** [JSON.stringify(v)] for [v] other than [undefined] and a function: an
    array item that is one of these is written [null], and so is a number
    that is not finite. *)
Fixpoint stringify (v : value) : string :=
  match v with
  | VUndef | VFun => "null"
  | VNull => "null"
  | VBool true => "true"
  | VBool false => "false"
  | VNum x => if isFinite x then num_to_string x else "null"
  | VStr s => json_quote s
  | VArr l => "[" ++ join "," (map stringify l) ++ "]"
  | VObj fs => "{" ++ join "," (json_props stringify fs) ++ "}"
  end.

(* ================================================================== *)
(** ** SHA-256 ([crypto.createHash('sha256').update(str).digest('hex')]) *)

Module SHA256.

Definition mask : Z := 2 ^ 32 - 1.
Definition w32 (x : Z) : Z := Z.land x mask.
Definition add32 (x y : Z) : Z := w32 (x + y).
Definition rotr (n x : Z) : Z :=
  Z.lor (Z.shiftr x n) (w32 (Z.shiftl x (32 - n))).
Definition Ch (x y z : Z) : Z :=
  Z.lxor (Z.land x y) (Z.land (Z.lxor x mask) z).
Definition Maj (x y z : Z) : Z :=
  Z.lxor (Z.land x y) (Z.lxor (Z.land x z) (Z.land y z)).
Definition Sigma0 (x : Z) : Z := Z.lxor (rotr 2 x) (Z.lxor (rotr 13 x) (rotr 22 x)).
Definition Sigma1 (x : Z) : Z := Z.lxor (rotr 6 x) (Z.lxor (rotr 11 x) (rotr 25 x)).
Definition sigma0 (x : Z) : Z := Z.lxor (rotr 7 x) (Z.lxor (rotr 18 x) (Z.shiftr x 3)).
Definition sigma1 (x : Z) : Z := Z.lxor (rotr 17 x) (Z.lxor (rotr 19 x) (Z.shiftr x 10)).

(** The round constants and the initial hash value of FIPS 180-4, in
    decimal. *)
Definition K : list Z :=
  [
   1116352408; 1899447441; 3049323471; 3921009573;
   961987163; 1508970993; 2453635748; 2870763221;
   3624381080; 310598401; 607225278; 1426881987;
   1925078388; 2162078206; 2614888103; 3248222580;
   3835390401; 4022224774; 264347078; 604807628;
   770255983; 1249150122; 1555081692; 1996064986;
   2554220882; 2821834349; 2952996808; 3210313671;
   3336571891; 3584528711; 113926993; 338241895;
   666307205; 773529912; 1294757372; 1396182291;
   1695183700; 1986661051; 2177026350; 2456956037;
   2730485921; 2820302411; 3259730800; 3345764771;
   3516065817; 3600352804; 4094571909; 275423344;
   430227734; 506948616; 659060556; 883997877;
   958139571; 1322822218; 1537002063; 1747873779;
   1955562222; 2024104815; 2227730452; 2361852424;
   2428436474; 2756734187; 3204031479; 3329325298 ].

Definition H0 : list Z :=
  [
   1779033703; 3144134277; 1013904242; 2773480762;
   1359893119; 2600822924; 528734635; 1541459225 ].

(** The message followed by 0x80, zeros up to 56 mod 64, and its length in
    bits on eight bytes. *)
Definition pad (msg : list Z) : list Z :=
  let len := Z.of_nat (List.length msg) in
  let nz := Z.to_nat ((55 - len) mod 64) in
  let bits := len * 8 in
  msg ++ [128] ++ repeat 0 nz
      ++ map (fun i => Z.land (Z.shiftr bits (8 * (7 - Z.of_nat i))) 255) (seq 0 8).

Fixpoint words (fuel : nat) (bytes : list Z) : list Z :=
  match fuel, bytes with
  | S fuel', a :: b :: c :: d :: rest =>
      (Z.shiftl a 24 + Z.shiftl b 16 + Z.shiftl c 8 + d) :: words fuel' rest
  | _, _ => []
  end.

Fixpoint blocks (fuel : nat) (ws : list Z) : list (list Z) :=
  match fuel, ws with
  | S fuel', _ :: _ => firstn 16 ws :: blocks fuel' (skipn 16 ws)
  | _, _ => []
  end.

(** The message schedule, kept most recent word first. *)
Fixpoint extend (n : nat) (rev_w : list Z) : list Z :=
  match n with
  | O => rev_w
  | S n' =>
      let w := add32 (add32 (sigma1 (nth 1 rev_w 0)) (nth 6 rev_w 0))
                     (add32 (sigma0 (nth 14 rev_w 0)) (nth 15 rev_w 0)) in
      extend n' (w :: rev_w)
  end.

Definition schedule (block : list Z) : list Z := rev (extend 48 (rev block)).

Record regs : Type := mkRegs { ra : Z; rb : Z; rc : Z; rd : Z; re : Z; rf : Z; rg : Z; rh : Z }.

Definition round (r : regs) (kw : Z * Z) : regs :=
  let t1 := add32 (add32 (add32 (rh r) (Sigma1 (re r))) (Ch (re r) (rf r) (rg r)))
                  (add32 (fst kw) (snd kw)) in
  let t2 := add32 (Sigma0 (ra r)) (Maj (ra r) (rb r) (rc r)) in
  mkRegs (add32 t1 t2) (ra r) (rb r) (rc r) (add32 (rd r) t1) (re r) (rf r) (rg r).

Definition regs_of (h : list Z) : regs :=
  mkRegs (nth 0 h 0) (nth 1 h 0) (nth 2 h 0) (nth 3 h 0)
         (nth 4 h 0) (nth 5 h 0) (nth 6 h 0) (nth 7 h 0).

Definition compress (h : list Z) (block : list Z) : list Z :=
  let r := fold_left round (combine K (schedule block)) (regs_of h) in
  map (fun p => add32 (fst p) (snd p))
      (combine h [ra r; rb r; rc r; rd r; re r; rf r; rg r; rh r]).

Definition hex8 (w : Z) : string :=
  string_of_list_ascii
    (map (fun i => hex_digit (Z.to_N (Z.land (Z.shiftr w (4 * (7 - Z.of_nat i))) 15)))
         (seq 0 8)).

Definition digest_hex (msg : string) : string :=
  let bytes := map (fun c => Z.of_N (code c)) (list_ascii_of_string msg) in
  let padded := pad bytes in
  let ws := words (List.length padded) padded in
  let h := fold_left compress (blocks (List.length ws) ws) H0 in
  String.concat EmptyString (map hex8 h).

End SHA256.

(* ================================================================== *)
(** ** Code common to [src/index.js] and [src/main.js]

    [mm], [grams], [sizeFingerprint], [pickSizeAttributes] (up to the
    console output of [main.js]), [attrFingerprint], [chunk],
    [fetchInfoList] and [fetchInfoV2] are the same text in both files. *)

Record config : Type := mkConfig {
  SIZE_TRACKING_MODE : string;
  SIZE_ATTR_PATTERNS : list string;
  NOTIFY_ON_NEW_PRODUCT : option string;
  TRACK_OFFER_IDS : list string
}.

(** The value of [SIZE_ATTR_PATTERNS] when the environment sets none. *)
Definition default_patterns : list string :=
  ["размер"; "российский размер"; "размер производителя"; "size"].

Definition attribute_mode (cfg : config) : bool :=
  String.eqb (SIZE_TRACKING_MODE cfg) "ATTRIBUTE"
  || String.eqb (SIZE_TRACKING_MODE cfg) "BOTH".

Definition dimensions_mode (cfg : config) : bool :=
  String.eqb (SIZE_TRACKING_MODE cfg) "DIMENSIONS"
  || String.eqb (SIZE_TRACKING_MODE cfg) "BOTH".

(** *** Unit normalisation *)

Definition mm (val unit : value) : result value :=
  if nullish val then Ok VNull else
  let x := Number val in
  if negb (isFinite x) then Ok VNull else
  let* u := call_toLowerCase (unit ||| VStr "") in
  if String.eqb u "mm" || String.eqb u "" then Ok (VNum (toFixed 2 x))
  else if String.eqb u "cm" then Ok (VNum (toFixed 2 (num_mul x 10)))
  else if String.eqb u "m" then Ok (VNum (toFixed 2 (num_mul x 1000)))
  else Ok (VNum x).

Definition grams (val unit : value) : result value :=
  if nullish val then Ok VNull else
  let x := Number val in
  if negb (isFinite x) then Ok VNull else
  let* u := call_toLowerCase (unit ||| VStr "") in
  if String.eqb u "g" || String.eqb u "" then Ok (VNum (toFixed 1 x))
  else if String.eqb u "kg" then Ok (VNum (toFixed 1 (num_mul x 1000)))
  else Ok (VNum x).

(** *** Canonical dimensions *)

Record dims : Type := mkDims {
  depth_mm : value;
  width_mm : value;
  height_mm : value;
  weight_g : value
}.

(** The inner [maybe] of [extractDims]. *)
Definition maybe (obj : value) : result dims :=
  let* d := mm (oget obj "depth" ??? oget obj "length" ??? oget obj "long")
               (oget obj "dimension_unit" ||| oget obj "length_unit" ||| oget obj "unit") in
  let* w := mm (oget obj "width")
               (oget obj "dimension_unit" ||| oget obj "width_unit" ||| oget obj "unit") in
  let* h := mm (oget obj "height")
               (oget obj "dimension_unit" ||| oget obj "height_unit" ||| oget obj "unit") in
  let* g := grams (oget obj "weight") (oget obj "weight_unit") in
  Ok (mkDims d w h g).

(** The object literal [direct] of [extractDims]. *)
Definition direct_of (it : value) : value :=
  VObj [("depth", oget it "depth"); ("width", oget it "width");
        ("height", oget it "height"); ("dimension_unit", oget it "dimension_unit");
        ("weight", oget it "weight"); ("weight_unit", oget it "weight_unit")].

Definition nested_of (it : value) : value :=
  oget it "dimensions" ||| oget it "dimension" ||| oget it "package_dimensions" ||| VObj [].

(** [[c.depth_mm, c.width_mm, c.height_mm, c.weight_g].filter(v => v != null)]. *)
Definition non_null_fields (c : dims) : list value :=
  filter (fun v => negb (nullish v)) [depth_mm c; width_mm c; height_mm c; weight_g c].

(** [extractDims] of [index.js]. *)
Definition extractDims (it : value) : result dims :=
  let* _ := get it "depth" in
  let direct := direct_of it in
  let dims := nested_of it in
  let* c1 := maybe direct in
  let* c2 := maybe dims in
  let vals1 := non_null_fields c1 in
  if negb (List.length vals1 =? 0)%nat then Ok c1 else Ok c2.

(** *** Fingerprints *)

(** The string hashed by [sizeFingerprint]. *)
Definition sizeCanonical (s : dims) : string :=
  stringify (VObj [("d", depth_mm s ??? VNull); ("w", width_mm s ??? VNull);
                   ("h", height_mm s ??? VNull); ("wg", weight_g s ??? VNull)]).

Definition sizeFingerprint (s : dims) : string :=
  SHA256.digest_hex (sizeCanonical s).

Record picked : Type := mkPicked {
  name : value;
  attribute_id : value;
  values : list value
}.

(** [v?.value ?? v?.text ?? v?.dictionary_value_id]. *)
Definition resolve_value (v : value) : value :=
  oget v "value" ??? oget v "text" ??? oget v "dictionary_value_id".

(** [SIZE_ATTR_PATTERNS.some((p) => name.includes(p))]. *)
Definition matches_pattern (patterns : list string) (name : string) : bool :=
  existsb (fun p => includes name p) patterns.

(** The name under which an attribute is matched. *)
Definition match_name (a : value) : string :=
  toLowerCase (to_string (oget a "name" ||| VStr "")).

(** The loop of [pickSizeAttributes] over its [list], pushing on [out]. *)
Fixpoint pick_loop (patterns : list string) (attrs : list value) (out : list picked)
  : result (list picked) :=
  match attrs with
  | [] => Ok out
  | a :: rest =>
      let* _ := get a "name" in
      if matches_pattern patterns (match_name a) then
        let* vs := as_array (oget a "values" ||| VArr []) in
        let values := filter truthy (map resolve_value vs) in
        pick_loop patterns rest
          (out ++ [mkPicked (oget a "name") (oget a "attribute_id") values])
      else pick_loop patterns rest out
  end.

Definition pickSizeAttributes (patterns : list string) (attrsItem : value)
  : result (list picked) :=
  let* attrs := iterate (oget attrsItem "attributes" ||| VArr []) in
  pick_loop patterns attrs [].

(** [Array.prototype.sort()] without a comparator: [undefined] last, the rest
    ordered by their strings, stably. *)
Fixpoint sort_insert (x : value) (l : list value) : list value :=
  match l with
  | [] => [x]
  | y :: l' =>
      if str_ltb (to_string y) (to_string x) then y :: sort_insert x l'
      else x :: l
  end.

Definition is_undef (v : value) : bool :=
  match v with
  | VUndef => true
  | _ => false
  end.

Definition sort (l : list value) : list value :=
  (fold_right sort_insert [] (filter (fun v => negb (is_undef v)) l)
   ++ filter is_undef l)%list.

(** The string hashed by [attrFingerprint]. *)
Definition attrCanonical (arr : list picked) : string :=
  stringify
    (VArr (map (fun a => VObj [("n", name a); ("id", attribute_id a);
                               ("v", VArr (sort (values a)))]) arr)).

Definition attrFingerprint (arr : list picked) : string :=
  SHA256.digest_hex (attrCanonical arr).

(** *** Batching *)

(** [arr.slice(i, j)]. *)
Definition slice {A : Type} (arr : list A) (i j : nat) : list A :=
  firstn (j - i) (skipn i arr).

(** [arr.reduce((acc, _, i) => (i % n ? acc : [...acc, arr.slice(i, i + n)]), [])]. *)
Definition chunk {A : Type} (arr : list A) (n : nat) : list (list A) :=
  fold_left
    (fun acc i =>
       if ((n =? 0) || (i mod n =? 0))%nat then (acc ++ [slice arr i (i + n)])%list
       else acc)
    (seq 0 (List.length arr)) [].

(** *** The remote catalogue *)

(** [ozonPost path body]: the response body, or the failure of the call. *)
Definition ozon : Type := string -> value -> result value.

Definition is_empty {A : Type} (l : list A) : bool :=
  match l with
  | [] => true
  | _ => false
  end.

Definition fetchInfoList (post : ozon) (offerIds : list value) : result value :=
  if is_empty offerIds then Ok (VArr []) else
  let* data := post "/v3/product/info/list" (VObj [("offer_id", VArr offerIds)]) in
  Ok (oget data "items" ||| VArr []).

Definition fetchInfoV2 (post : ozon) (offerIds : list value) : result value :=
  if is_empty offerIds then Ok (VArr []) else
  let* data := post "/v2/product/info" (VObj [("offer_id", VArr offerIds)]) in
  Ok (oget data "items" ||| oget data "result" ||| VArr []).

(** [items.push(...(await fetch(bb)))] under [try {} catch {}], for each
    chunk of 100 identifiers. *)
Definition fetch_chunks (fetch : list value -> result value) (offerIds : list value)
  : list value :=
  fold_left
    (fun items bb =>
       match (let* r := fetch bb in iterate r) with
       | Ok l => (items ++ l)%list
       | Raise _ => items
       end)
    (chunk offerIds 100) [].

(** Step 1 of [processBatch]: the bulk call, and on its failure the
    fallback by chunks. *)
Definition fetch_info (post : ozon) (offerIds : list value) : value :=
  match fetchInfoList post offerIds with
  | Ok infoItems => infoItems
  | Raise _ => VArr (fetch_chunks (fetchInfoV2 post) offerIds)
  end.

(** [new Map(items.map((x) => [x.offer_id, x]))]. *)
Fixpoint by_offer (items : list value) : result (list (value * value)) :=
  match items with
  | [] => Ok []
  | x :: rest =>
      let* k := get x "offer_id" in
      let* m := by_offer rest in
      Ok ((k, x) :: m)
  end.

(** [m.get(k)]: the last entry set under [k]. *)
Definition Map_get (m : list (value * value)) (k : value) : value :=
  match find (fun e => same_value_zero (fst e) k) (rev m) with
  | Some e => snd e
  | None => VUndef
  end.

(** *** Notifications: the calls of [notifyAll], by message builder *)

Inductive message : Type :=
| NewProduct (offer_id it : value) (d : dims)
| DimDiff (offer_id it : value) (oldDims newDims : dims)
| AttrDiff (offer_id it : value) (oldArr newArr : list picked)
| ScanError (e : error).

Definition is_change_message (m : message) : bool :=
  match m with
  | DimDiff _ _ _ _ | AttrDiff _ _ _ _ => true
  | _ => false
  end.

(** *** The products table *)

Section Table.
Variable row : Type.
Variable key : row -> value.

(** A stored row: the columns bound by the upsert and [last_seen_at]. *)
Definition table : Type := list (row * string).

(** [stmtGetProd.get(offer_id)]. *)
Fixpoint select (t : table) (offer_id : value) : option (row * string) :=
  match t with
  | [] => None
  | (r, seen) :: rest =>
      if strict_eq (key r) offer_id then Some (r, seen) else select rest offer_id
  end.

(** [stmtUpsertProd.run(r)] at time [now]. *)
Fixpoint upsert (now : string) (r : row) (t : table) : table :=
  match t with
  | [] => [(r, now)]
  | (r', seen) :: rest =>
      if strict_eq (key r') (key r) then (r, now) :: rest
      else (r', seen) :: upsert now r rest
  end.

(** [txUpsertMany(rows)]. *)
Definition txUpsertMany (now : string) (rows : list row) (t : table) : table :=
  fold_left (fun t r => upsert now r t) rows t.
End Table.

Arguments select {row} key t offer_id.
Arguments upsert {row} key now r t.
Arguments txUpsertMany {row} key now rows t.

(** [process.env.X || d]. *)
Definition env_or (v : option string) (d : string) : string :=
  match v with
  | Some s => if String.eqb s "" then d else s
  | None => d
  end.

(** How an iteration of a loop body ends. *)
Inductive flow : Type :=
| Continue
| Return.

(* ================================================================== *)
(** ** [src/index.js] *)

Module Index.

(** The parameter object of [stmtUpsertProd], which is also the row
    [stmtGetProd] reads back (it selects no [product_id] and no [name],
    and the code reads neither from [prev]). *)
Module ProductRow.
Record t : Type := mk {
  offer_id : value;
  product_id : value;
  name : value;
  updated_at : value;
  dim_hash : value;
  depth_mm : value;
  width_mm : value;
  height_mm : value;
  weight_g : value;
  attr_hash : value
}.
End ProductRow.

Definition products : Type := table ProductRow.t.

Definition fetchAttributesV4 (post : ozon) (offerIds : list value) : result value :=
  if is_empty offerIds then Ok (VArr []) else
  let* data := post "/v4/product/info/attributes" (VObj [("offer_id", VArr offerIds)]) in
  Ok (oget data "items" ||| VArr []).

(** Step 2 of [processBatch]: [attrsByOffer]. *)
Definition fetch_attrs (cfg : config) (post : ozon) (offerIds : list value)
  : result (list (value * value)) :=
  if attribute_mode cfg
  then by_offer (fetch_chunks (fetchAttributesV4 post) offerIds)
  else Ok [].

(** The local [upserts] and the notifications sent so far. *)
Record progress : Type := mkProgress {
  upserts : list ProductRow.t;
  sent : list message
}.

Definition push (r : ProductRow.t) (st : progress) : progress :=
  mkProgress (upserts st ++ [r]) (sent st).

Definition notifyAll (m : message) (st : progress) : progress :=
  mkProgress (upserts st) (sent st ++ [m]).

Definition notify_if (b : bool) (m : message) (st : progress) : progress :=
  if b then notifyAll m st else st.

(** The row staged for an offer seen for the first time. *)
Definition baseline_row (offer_id it : value) (d : dims) : ProductRow.t :=
  ProductRow.mk offer_id
         (oget it "id" ||| oget it "product_id" ||| VInt 0)
         (oget it "name" ||| VStr "")
         (oget it "updated_at" ||| oget it "updatedAt" ||| VStr "")
         (VStr (sizeFingerprint d))
         (depth_mm d ??? VNull) (width_mm d ??? VNull)
         (height_mm d ??? VNull) (weight_g d ??? VNull)
         VNull.

(** The row staged on the early exit. *)
Definition fast_row (offer_id it name updated_at : value) (prev : ProductRow.t) : ProductRow.t :=
  ProductRow.mk offer_id
         (oget it "id" ||| oget it "product_id" ||| VInt 0)
         name updated_at
         (ProductRow.dim_hash prev)
         (ProductRow.depth_mm prev) (ProductRow.width_mm prev)
         (ProductRow.height_mm prev) (ProductRow.weight_g prev)
         (ProductRow.attr_hash prev).

(** The condition of the early exit, [prev] being a row. *)
Definition fast_path (cfg : config) (prev : ProductRow.t) (updated_at : value) : bool :=
  truthy (ProductRow.updated_at prev) && truthy updated_at
  && strict_eq (ProductRow.updated_at prev) updated_at
  && String.eqb (SIZE_TRACKING_MODE cfg) "DIMENSIONS".

Definition old_dims (prev : ProductRow.t) : dims :=
  mkDims (ProductRow.depth_mm prev) (ProductRow.width_mm prev) (ProductRow.height_mm prev) (ProductRow.weight_g prev).

(** The body of [for (const it of infoItems)]. *)
Definition reconcile (cfg : config) (db : products) (attrsByOffer : list (value * value))
           (it : value) (st : progress) : result (flow * progress) :=
  let* o := get it "offer_id" in
  let offer_id := o ||| oget it "offerId" ||| oget it "offer" in
  if negb (truthy offer_id) then Ok (Continue, st) else
  let name := oget it "name" ||| VStr "" in
  let updated_at := oget it "updated_at" ||| oget it "updatedAt" ||| VStr "" in
  let prev := select ProductRow.offer_id db offer_id in
  let NOTIFY_ON_NEW :=
    String.eqb (toLowerCase (env_or (NOTIFY_ON_NEW_PRODUCT cfg) "false")) "true" in
  match prev with
  | None =>
      let* dims := extractDims it in
      let st1 := notify_if NOTIFY_ON_NEW (NewProduct offer_id it dims) st in
      Ok (Return, push (baseline_row offer_id it dims) st1)
  | Some (prev, _) =>
      if fast_path cfg prev updated_at then
        Ok (Continue, push (fast_row offer_id it name updated_at prev) st)
      else
        let* dims := extractDims it in
        let dimHash := VStr (sizeFingerprint dims) in
        let* attrHash :=
          if attribute_mode cfg then
            let attrsItem := Map_get attrsByOffer offer_id in
            let* picked :=
              if truthy attrsItem
              then pickSizeAttributes (SIZE_ATTR_PATTERNS cfg) attrsItem
              else Ok [] in
            Ok (VStr (attrFingerprint picked))
          else Ok (ProductRow.attr_hash prev ||| VNull) in
        let st1 :=
          notify_if (dimensions_mode cfg && truthy (ProductRow.dim_hash prev)
                     && negb (strict_eq (ProductRow.dim_hash prev) dimHash))
                    (DimDiff offer_id it (old_dims prev) dims) st in
        let st2 :=
          notify_if (attribute_mode cfg && truthy (ProductRow.attr_hash prev)
                     && negb (strict_eq (ProductRow.attr_hash prev) attrHash))
                    (AttrDiff offer_id it [] []) st1 in
        Ok (Continue,
            push (ProductRow.mk offer_id
                         (oget it "id" ||| oget it "product_id" ||| VInt 0)
                         name updated_at dimHash
                         (depth_mm dims ??? VNull) (width_mm dims ??? VNull)
                         (height_mm dims ??? VNull) (weight_g dims ??? VNull)
                         (attrHash ??? VNull)) st2)
  end.

(** The loop over [infoItems]: how it ends, and the state it ends in. *)
Fixpoint loop (cfg : config) (db : products) (attrsByOffer : list (value * value))
         (items : list value) (st : progress) : result flow * progress :=
  match items with
  | [] => (Ok Continue, st)
  | it :: rest =>
      match reconcile cfg db attrsByOffer it st with
      | Ok (Continue, st') => loop cfg db attrsByOffer rest st'
      | Ok (Return, st') => (Ok Return, st')
      | Raise e => (Raise e, st)
      end
  end.

(** What a call of [processBatch] leaves behind. *)
Record outcome : Type := mkOutcome {
  status : result unit;
  db_after : products;
  notified : list message
}.

(** Step 4: [if (upserts.length) txUpsertMany(upserts)]. *)
Definition commit (now : string) (ups : list ProductRow.t) (db : products) : products :=
  if is_empty ups then db else txUpsertMany ProductRow.offer_id now ups db.

Definition processBatch (cfg : config) (post : ozon) (now : string) (db : products)
           (offerIds : list value) : outcome :=
  let infoItems := fetch_info post offerIds in
  match fetch_attrs cfg post offerIds with
  | Raise e => mkOutcome (Raise e) db []
  | Ok attrsByOffer =>
      match iterate infoItems with
      | Raise e => mkOutcome (Raise e) db []
      | Ok items =>
          match loop cfg db attrsByOffer items (mkProgress [] []) with
          | (Ok Continue, st) => mkOutcome (Ok tt) (commit now (upserts st) db) (sent st)
          | (Ok Return, st) => mkOutcome (Ok tt) db (sent st)
          | (Raise e, st) => mkOutcome (Raise e) db (sent st)
          end
      end
  end.

End Index.

(* ================================================================== *)
(** ** [src/main.js] *)

Module Main.

Module ProductRow.
Record t : Type := mk {
  offer_id : value;
  product_id : value;
  name : value;
  updated_at : value;
  dim_hash : value;
  depth_mm : value;
  width_mm : value;
  height_mm : value;
  weight_g : value
}.
End ProductRow.

Definition products : Type := table ProductRow.t.

Definition fetchAttributesV4 (post : ozon) (offerIds : list value) : result value :=
  if is_empty offerIds then Ok (VArr []) else
  let* data :=
    post "/v4/product/info/attributes"
         (VObj [("filter", VObj [("product_id", VArr []); ("offer_id", VArr offerIds);
                                 ("sku", VArr []); ("visibility", VStr "ALL")]);
                ("limit", VInt 1000); ("sort_dir", VStr "ASC")]) in
  Ok (oget data "result" ||| VArr []).

Definition extractDimsFromAttrsRoot (item : value) : result dims :=
  let dimension_unit :=
    oget item "dimension_unit" ||| oget item "length_unit" ||| oget item "unit"
    ||| VStr "mm" in
  let weight_unit := oget item "weight_unit" ||| VStr "g" in
  let* d := mm (oget item "depth" ??? oget item "length" ??? oget item "long")
               dimension_unit in
  let* w := mm (oget item "width") dimension_unit in
  let* h := mm (oget item "height") dimension_unit in
  let* g := grams (oget item "weight") weight_unit in
  Ok (mkDims d w h g).

Definition extractDimsFromInfo (it : value) : result dims :=
  let* _ := get it "depth" in
  let direct := direct_of it in
  let dims := nested_of it in
  let* c1 := maybe direct in
  let* c2 := maybe dims in
  let vals1 := non_null_fields c1 in
  if negb (List.length vals1 =? 0)%nat then Ok c1 else Ok c2.

(** Step 2 of [processBatch]: one call for the whole batch, outside any
    [try]. *)
Definition fetch_attrs (cfg : config) (post : ozon) (offerIds : list value)
  : result (list (value * value)) :=
  if attribute_mode cfg then
    let* attrItems := fetchAttributesV4 post offerIds in
    let* items := as_array attrItems in
    by_offer items
  else Ok [].

Record progress : Type := mkProgress {
  upserts : list ProductRow.t;
  sent : list message
}.

Definition old_dims (prev : ProductRow.t) : dims :=
  mkDims (ProductRow.depth_mm prev) (ProductRow.width_mm prev) (ProductRow.height_mm prev) (ProductRow.weight_g prev).

(** [Object.keys(v).length]. *)
Definition keys_length (v : value) : nat :=
  match v with
  | VObj fs => List.length (nodup string_dec (map fst fs))
  | VArr l => List.length l
  | VStr s => Z.to_nat (utf16_length s)
  | _ => O
  end.

(** [[d.depth_mm, d.width_mm, d.height_mm, d.weight_g].some((v) => v != null)]. *)
Definition hasAny (d : dims) : bool :=
  existsb (fun v => negb (nullish v)) [depth_mm d; width_mm d; height_mm d; weight_g d].

(** The canonical dimensions of an offer, from its attributes record and
    its info record. *)
Definition dims_of (info attrs : value) : result dims :=
  let* dims := extractDimsFromAttrsRoot attrs in
  if negb (hasAny dims) then
    if truthy info && negb (keys_length info =? 0)%nat
    then extractDimsFromInfo info
    else Ok dims
  else Ok dims.

(** The body of [for (const offer_id of offerIds)]. *)
Definition reconcile (db : products) (infoByOffer attrsByOffer : list (value * value))
           (offer_id : value) (st : progress) : result progress :=
  let info := Map_get infoByOffer offer_id ||| VObj [("offer_id", offer_id)] in
  let attrs := Map_get attrsByOffer offer_id ||| VObj [] in
  let* dims := dims_of info attrs in
  let newHash := VStr (sizeFingerprint dims) in
  let prev := select ProductRow.offer_id db offer_id in
  let sent1 :=
    match prev with
    | Some (prev, _) =>
        if truthy (ProductRow.dim_hash prev) && negb (strict_eq (ProductRow.dim_hash prev) newHash)
        then (sent st ++ [DimDiff offer_id info (old_dims prev) dims])%list
        else sent st
    | None => sent st
    end in
  Ok (mkProgress
        (upserts st ++
           [ProductRow.mk offer_id
                   (oget info "id" ||| oget info "product_id" ||| VInt 0)
                   (oget info "name" ||| VStr "")
                   (oget info "updated_at" ||| oget info "updatedAt" ||| VStr "")
                   newHash
                   (depth_mm dims ??? VNull) (width_mm dims ??? VNull)
                   (height_mm dims ??? VNull) (weight_g dims ??? VNull)])
        sent1).

Fixpoint loop (db : products) (infoByOffer attrsByOffer : list (value * value))
         (offerIds : list value) (st : progress) : result unit * progress :=
  match offerIds with
  | [] => (Ok tt, st)
  | offer_id :: rest =>
      match reconcile db infoByOffer attrsByOffer offer_id st with
      | Ok st' => loop db infoByOffer attrsByOffer rest st'
      | Raise e => (Raise e, st)
      end
  end.

Record outcome : Type := mkOutcome {
  status : result unit;
  db_after : products;
  notified : list message
}.

Definition commit (now : string) (ups : list ProductRow.t) (db : products) : products :=
  if is_empty ups then db else txUpsertMany ProductRow.offer_id now ups db.

Definition processBatch (cfg : config) (post : ozon) (now : string) (db : products)
           (offerIds : list value) : outcome :=
  let infoItems := fetch_info post offerIds in
  match (let* items := as_array infoItems in by_offer items) with
  | Raise e => mkOutcome (Raise e) db []
  | Ok infoByOffer =>
      match fetch_attrs cfg post offerIds with
      | Raise e => mkOutcome (Raise e) db []
      | Ok attrsByOffer =>
          match loop db infoByOffer attrsByOffer offerIds (mkProgress [] []) with
          | (Ok _, st) => mkOutcome (Ok tt) (commit now (upserts st) db) (sent st)
          | (Raise e, st) => mkOutcome (Raise e) db (sent st)
          end
      end
  end.

(** *** The scan *)

(** The records [writeLog] is given with [kind: 'scan']. *)
Inductive log_event : Type :=
| scan_start
| offers_loaded (count : nat)
| scan_end (batches : nat)
| skip_overlap
| tick_start
| scan_error (e : error)
| tick_end.

(** [iterOffers]: the offers it yields before it returns or raises;
    [None] when [fuel] pages did not end the catalogue. *)
Fixpoint iterOffers (fuel : nat) (cfg : config) (post : ozon) (last_id : value)
  : option (result (list value)) :=
  match fuel with
  | O => None
  | S fuel' =>
      let tracked := negb (is_empty (TRACK_OFFER_IDS cfg)) in
      let filter :=
        (("visibility", VStr "ALL")
           :: (if tracked
               then [("offer_id", VArr (map VStr (TRACK_OFFER_IDS cfg)))]
               else []))%list in
      let body := VObj [("limit", VInt 1000); ("last_id", last_id);
                        ("filter", VObj filter)] in
      match post "/v3/product/list" body with
      | Raise e => Some (Raise e)
      | Ok data =>
          let items :=
            oget (oget data "result") "items" ??? oget data "result"
            ??? oget data "items" ??? VArr [] in
          if negb (truthy (oget items "length")) then Some (Ok [])
          else
            match iterate items with
            | Raise e => Some (Raise e)
            | Ok its =>
                let yielded :=
                  flat_map
                    (fun it =>
                       if truthy (oget it "offer_id")
                       then [VObj [("offer_id", oget it "offer_id");
                                   ("product_id", oget it "product_id")]]
                       else [])
                    its in
                let last_id' :=
                  oget (oget data "result") "last_id" ||| oget data "last_id"
                  ||| VStr "" in
                if negb (truthy last_id') || tracked then Some (Ok yielded)
                else
                  match iterOffers fuel' cfg post last_id' with
                  | Some (Ok more) => Some (Ok (yielded ++ more)%list)
                  | other => other
                  end
            end
      end
  end.

(** What a settled [scanOnce] leaves behind. *)
Record scan : Type := mkScan {
  scan_status : result unit;
  scan_db : products;
  scan_sent : list message;
  scan_log : list log_event
}.

(** The batches of a scan, one after the other (the two batches that
    [pLimit(2)] lets run together are not interleaved here); the scan
    fails with the first failure among them. *)
Definition run_batches (cfg : config) (post : ozon) (now : string) (db : products)
           (batches : list (list value)) : result unit * products * list message :=
  fold_left
    (fun acc b =>
       let '(st, db, out) := acc in
       let r := processBatch cfg post now db b in
       (match st with
        | Ok _ => status r
        | Raise e => Raise e
        end, db_after r, (out ++ notified r)%list))
    batches (Ok tt, db, []).

Definition scanOnce (fuel : nat) (cfg : config) (post : ozon) (now : string)
           (db : products) : option scan :=
  match iterOffers fuel cfg post (VStr "") with
  | None => None
  | Some (Raise e) => Some (mkScan (Raise e) db [] [scan_start])
  | Some (Ok offers) =>
      let log := [scan_start; offers_loaded (List.length offers)] in
      if is_empty offers then Some (mkScan (Ok tt) db [] log)
      else
        let offerIds := map (fun o => oget o "offer_id") offers in
        let batches := chunk offerIds 1000 in
        let '(st, db', out) := run_batches cfg post now db batches in
        match st with
        | Ok _ =>
            Some (mkScan (Ok tt) db' out
                         (log ++ [scan_end ((List.length offers + 999) / 1000)%nat]))
        | Raise e => Some (mkScan (Raise e) db' out log)
        end
  end.

(** *** The scheduler *)

(** The process between two events: the flag [isScanning], the table, the
    notifications sent and the log written so far. *)
Record scheduler : Type := mkScheduler {
  isScanning : bool;
  db : products;
  outbox : list message;
  log : list log_event
}.

(** [tick()] up to its first [await]: either it returns at once, or it
    raises the flag and starts [scanOnce]. *)
Definition tick_enter (s : scheduler) : scheduler :=
  if isScanning s then
    mkScheduler (isScanning s) (db s) (outbox s) (log s ++ [skip_overlap])
  else
    mkScheduler true (db s) (outbox s) (log s ++ [tick_start]).

(** [tick()] from the moment the awaited [scanOnce()] settles with [r]:
    [catch] and [finally]. *)
Definition tick_resume (r : scan) (s : scheduler) : scheduler :=
  match scan_status r with
  | Ok _ =>
      mkScheduler false (scan_db r) (outbox s ++ scan_sent r)
                  (log s ++ scan_log r ++ [tick_end])
  | Raise e =>
      mkScheduler false (scan_db r) (outbox s ++ scan_sent r ++ [ScanError e])
                  (log s ++ scan_log r ++ [scan_error e; tick_end])
  end.

(** What happens to the process: the timer fires, or the scan of the
    running tick settles. *)
Inductive event : Type :=
| Tick
| Settled.

Definition step (fuel : nat) (cfg : config) (post : ozon) (now : string)
           (s : scheduler) (ev : event) : scheduler :=
  match ev with
  | Tick => tick_enter s
  | Settled =>
      if isScanning s then
        match scanOnce fuel cfg post now (db s) with
        | Some r => tick_resume r s
        | None => s
        end
      else s
  end.

End Main.

(* ================================================================== *)
(** ** Predicates of the specification *)



(** Two fields of canonical dimensions hold the same thing: the same value,
    nothing on both sides, or two representations of one number. *)
Definition same_field (a b : value) : Prop :=
  a = b
  \/ (nullish a = true /\ nullish b = true)
  \/ (exists x y, a = VNum x /\ b = VNum y /\ num_eqb x y = true).

Definition same_dims (d1 d2 : dims) : Prop :=
  same_field (depth_mm d1) (depth_mm d2)
  /\ same_field (width_mm d1) (width_mm d2)
  /\ same_field (height_mm d1) (height_mm d2)
  /\ same_field (weight_g d1) (weight_g d2).

(** Two selected attributes differ at most in the order of their values. *)
Definition same_up_to_value_order (a b : picked) : Prop :=
  name a = name b
  /\ attribute_id a = attribute_id b
  /\ Permutation (values a) (values b).

(** The values of a list are told apart by their strings (as strings are). *)
Definition told_apart (l : list value) : Prop :=
  forall x y, In x l -> In y l -> to_string x = to_string y -> x = y.

Definition is_string (v : value) : Prop := exists s, v = VStr s.

(** What [pickSizeAttributes] pushes for a matched attribute [a] whose
    values are the array [vs]. *)
Definition values_of (a : value) : list value :=
  match oget a "values" ||| VArr [] with
  | VArr vs => vs
  | _ => []
  end.

Definition picked_of (a : value) : picked :=
  mkPicked (oget a "name") (oget a "attribute_id")
           (filter truthy (map resolve_value (values_of a))).

(** An attribute the loop of [pickSizeAttributes] goes through without
    raising: an object (anything but [null] and [undefined]) whose [values],
    when present, is an array. *)
Definition well_formed_attribute (a : value) : Prop :=
  nullish a = false /\ exists vs, oget a "values" ||| VArr [] = VArr vs.

(* ================================================================== *)
(** ** Payloads, tables and catalogues used as examples *)

Definition info_conflict : value :=
  VObj [("offer_id", VStr "A"); ("depth", VInt 10); ("width", VInt 5);
        ("dimensions", VObj [("depth", VInt 20); ("width", VInt 5); ("height", VInt 3)])].

Definition attrs_conflict : value :=
  VObj [("offer_id", VStr "A"); ("depth", VInt 20); ("width", VInt 5)].

Definition attr_all_falsy : value :=
  VObj [("name", VStr "Размер"); ("attribute_id", VInt 4);
        ("values", VArr [VObj [("value", VStr "")];
                         VObj [("dictionary_value_id", VInt 0)];
                         VObj [("value", VNull); ("text", VNull)]])].

Definition attr_size : value :=
  VObj [("name", VStr "Size EU"); ("attribute_id", VInt 9);
        ("values", VArr [VObj [("value", VStr "42"); ("dictionary_value_id", VInt 7)];
                         VObj [("text", VStr "M")];
                         VObj [("dictionary_value_id", VInt 971)]])].

Definition attr_colour : value :=
  VObj [("name", VStr "Цвет"); ("attribute_id", VInt 5);
        ("values", VArr [VObj [("value", VStr "red")]])].

Definition attrs_payload : value :=
  VObj [("offer_id", VStr "A");
        ("attributes", VArr [attr_all_falsy; attr_colour; attr_size])].

Definition sizes_ab : list picked :=
  [mkPicked (VStr "Size") (VInt 9) [VStr "M"; VStr "L"; VStr "XL"]].

Definition sizes_ba : list picked :=
  [mkPicked (VStr "Size") (VInt 9) [VStr "XL"; VStr "M"; VStr "L"]].

(** An attribute with the value ["42"] and the dictionary identifier [42],
    in the two orders. *)
Definition attr_mixed (first second : value) : value :=
  VObj [("attributes",
         VArr [VObj [("name", VStr "Size"); ("attribute_id", VInt 9);
                     ("values", VArr [first; second])]])].

Definition value_42 : value := VObj [("value", VStr "42")].
Definition dictionary_42 : value := VObj [("dictionary_value_id", VInt 42)].

Definition mixed_ab : list picked :=
  [mkPicked (VStr "Size") (VInt 9) [VStr "42"; VInt 42]].

Definition mixed_ba : list picked :=
  [mkPicked (VStr "Size") (VInt 9) [VInt 42; VStr "42"]].

Definition cfg_dimensions : config := mkConfig "DIMENSIONS" default_patterns None [].
Definition cfg_both : config := mkConfig "BOTH" default_patterns None [].

Definition item_A : value :=
  VObj [("offer_id", VStr "A"); ("id", VInt 7); ("name", VStr "Mug, new name");
        ("updated_at", VStr "2024-05-01T10:00:00Z"); ("depth", VInt 100);
        ("width", VInt 50); ("height", VInt 20); ("weight", VInt 300)].

Definition item_B : value :=
  VObj [("offer_id", VStr "B"); ("id", VInt 8); ("name", VStr "Plate");
        ("updated_at", VStr "2024-05-02T10:00:00Z"); ("depth", VInt 200)].

(** Offer C is longer than it was, and says nothing of when it changed. *)
Definition item_C : value :=
  VObj [("offer_id", VStr "C"); ("id", VInt 3); ("name", VStr "Bowl");
        ("depth", VInt 120); ("width", VInt 50); ("height", VInt 20);
        ("weight", VInt 300)].

Definition item_C_same_time : value :=
  VObj [("offer_id", VStr "C"); ("id", VInt 3); ("name", VStr "Bowl");
        ("updated_at", VStr "2024-05-01T10:00:00Z");
        ("depth", VInt 120); ("width", VInt 50); ("height", VInt 20);
        ("weight", VInt 300)].

(** A catalogue whose bulk endpoint answers with [items]; its other
    endpoints fail. *)
Definition post_info (items : list value) : ozon :=
  fun path _ =>
    if String.eqb path "/v3/product/info/list"
    then Ok (VObj [("items", VArr items)])
    else Raise (FetchFailed 500).

(** A catalogue out of reach. *)
Definition post_down : ozon := fun _ _ => Raise (FetchFailed 503).

(** A catalogue that answers for the products and refuses the attributes. *)
Definition post_no_attributes (items : list value) : ozon :=
  fun path _ =>
    if String.eqb path "/v3/product/info/list"
    then Ok (VObj [("items", VArr items)])
    else Raise (FetchFailed 429).


(** The identifiers [o0], [o1], ... *)
Definition offers (n : nat) : list value :=
  map (fun i => VStr ("o" ++ digits_of (Z.of_nat i))) (seq 0 n).

(** A catalogue of two offers, answered in one page. *)
Definition post_shop : ozon :=
  fun path _ =>
    if String.eqb path "/v3/product/list" then
      Ok (VObj [("result",
                 VObj [("items",
                        VArr [VObj [("offer_id", VStr "A"); ("product_id", VInt 7)];
                              VObj [("offer_id", VStr "B"); ("product_id", VInt 8)]]);
                       ("last_id", VStr "")])])
    else if String.eqb path "/v3/product/info/list" then
      Ok (VObj [("items", VArr [item_A; item_B])])
    else Raise (FetchFailed 500).

Definition dims_A : dims := mkDims (VInt 100) (VInt 50) (VInt 20) (VInt 300).

(** The baseline of offer A in the table of [index.js], last modified when
    [item_A] was. *)
Definition baseline_A : Index.ProductRow.t :=
  Index.ProductRow.mk (VStr "A") (VInt 1) (VStr "Mug") (VStr "2024-05-01T10:00:00Z")
               (VStr (sizeFingerprint dims_A))
               (VInt 100) (VInt 50) (VInt 20) (VInt 300) VNull.

(** The baseline of offer C carries no modification time either. *)
Definition baseline_C : Index.ProductRow.t :=
  Index.ProductRow.mk (VStr "C") (VInt 3) (VStr "Bowl") (VStr "")
               (VStr (sizeFingerprint dims_A))
               (VInt 100) (VInt 50) (VInt 20) (VInt 300) VNull.

(** The baseline of offer A in the table of [main.js]. *)
Definition stored_A : Main.ProductRow.t :=
  Main.ProductRow.mk (VStr "A") (VInt 7) (VStr "Mug") (VStr "2024-04-01T10:00:00Z")
              (VStr (sizeFingerprint dims_A))
              (VInt 100) (VInt 50) (VInt 20) (VInt 300).

(** The row of an offer of which nothing is known. *)
Definition blank_A : Main.ProductRow.t :=
  Main.ProductRow.mk (VStr "A") (VInt 0) (VStr "") (VStr "")
              (VStr (sizeFingerprint (mkDims VNull VNull VNull VNull)))
              VNull VNull VNull VNull.

Definition main_baseline_C : Main.ProductRow.t :=
  Main.ProductRow.mk (VStr "C") (VInt 3) (VStr "Bowl") (VStr "2024-05-01T10:00:00Z")
              (VStr (sizeFingerprint dims_A))
              (VInt 100) (VInt 50) (VInt 20) (VInt 300).

(** A scheduler in the middle of a scan. *)
Definition scanning : Main.scheduler :=
  Main.mkScheduler true [(stored_A, "before")] [] [Main.tick_start].

(** The offer an info record is about, as [processBatch] of [index.js]
    reads it. *)
Definition item_offer_id (it : value) : value :=
  oget it "offer_id" ||| oget it "offerId" ||| oget it "offer".

(** A computation that fails only with a [TypeError]: it raises no failure
    of a fetch. *)
Definition own_errors {A : Type} (c : result A) : Prop :=
  forall e, c = Raise e -> e = TypeError.

(* ================================================================== *)
(** ** The rest of the two files: messages, logging, table invariants *)

(** [fmt(v, unit)]. *)
Definition fmt (v : value) (unit : string) : string :=
  if nullish v then "—" else to_string v ++ unit.

(** One [if (...) lines.push(...)] of [dimDiffMessage]: the line of a field,
    when its two values differ. *)
Definition diff_line (label unit : string) (old new : value) : list string :=
  if negb (strict_eq (old ??? VNull) (new ??? VNull))
  then [label ++ ": <code>" ++ fmt old unit ++ "</code> → <code>"
              ++ fmt new unit ++ "</code>"]
  else [].

(** The array [lines] of [dimDiffMessage]. *)
Definition diff_lines (oldDims newDims : dims) : list string :=
  (diff_line "• Длина/Глубина" " мм" (depth_mm oldDims) (depth_mm newDims)
   ++ diff_line "• Ширина" " мм" (width_mm oldDims) (width_mm newDims)
   ++ diff_line "• Высота" " мм" (height_mm oldDims) (height_mm newDims)
   ++ diff_line "• Вес" " г" (weight_g oldDims) (weight_g newDims))%list.

(** A row whose fingerprint is the one of its own dimensions. *)
Definition main_row_consistent (r : Main.ProductRow.t) : Prop :=
  Main.ProductRow.dim_hash r = VStr (sizeFingerprint (Main.old_dims r)).

Definition index_row_consistent (r : Index.ProductRow.t) : Prop :=
  Index.ProductRow.dim_hash r = VStr (sizeFingerprint (Index.old_dims r)).

(** The rows of a table. *)
Definition rows_of {row : Type} (t : table row) : list row := map fst t.

(** No two rows of the table have the same key (PRIMARY KEY). *)
Fixpoint distinct_keys {row : Type} (key : row -> value) (t : table row) : Prop :=
  match t with
  | [] => True
  | (r, _) :: rest =>
      Forall (fun r' => strict_eq (key r) (key r') = false) (rows_of rest)
      /\ distinct_keys key rest
  end.

(** A value that is equal to itself: any key but [NaN], an array or an
    object. *)
Definition proper_key (k : value) : Prop := strict_eq k k = true.

(** *** Logging helpers of main.js *)

Module Logging.





End Logging.

(** *** Fragments of [processBatch] of main.js, by offer *)

(** The record [info] and the dimensions [dims] that the loop of
    [processBatch] computes for an identifier. *)
Definition main_info (infoByOffer : list (value * value)) (offer_id : value) : value :=
  Map_get infoByOffer offer_id ||| VObj [("offer_id", offer_id)].

Definition main_dims (infoByOffer attrsByOffer : list (value * value)) (offer_id : value)
  : result dims :=
  Main.dims_of (main_info infoByOffer offer_id) (Map_get attrsByOffer offer_id ||| VObj []).

(** A message of main.js about a stored offer of the batch whose
    fingerprint is not the stored one. *)
Definition main_change_notice (db : Main.products) (offerIds : list value) (m : message)
  : Prop :=
  exists offer_id info prev seen d,
    m = DimDiff offer_id info (Main.old_dims prev) d
    /\ In offer_id offerIds
    /\ select Main.ProductRow.offer_id db offer_id = Some (prev, seen)
    /\ truthy (Main.ProductRow.dim_hash prev) = true
    /\ strict_eq (Main.ProductRow.dim_hash prev) (VStr (sizeFingerprint d)) = false.

(** What an iteration of the loop of main.js stages: a row with the
    fingerprint of the dimensions computed for its offer. *)
Definition main_staged (infoByOffer attrsByOffer : list (value * value)) (r : Main.ProductRow.t)
  : Prop :=
  exists d,
    main_dims infoByOffer attrsByOffer (Main.ProductRow.offer_id r) = Ok d
    /\ Main.ProductRow.dim_hash r = VStr (sizeFingerprint d)
    /\ main_row_consistent r.


(** *** What index.js may send *)

(** [NOTIFY_ON_NEW], as [processBatch] of index.js computes it. *)
Definition NOTIFY_ON_NEW (cfg : config) : bool :=
  String.eqb (toLowerCase (env_or (NOTIFY_ON_NEW_PRODUCT cfg) "false")) "true".

(** A message of index.js, with the reason the code had to send it. *)
Definition index_notice (cfg : config) (db : Index.products) (m : message) : Prop :=
  match m with
  | NewProduct offer_id it d =>
      NOTIFY_ON_NEW cfg = true
      /\ select Index.ProductRow.offer_id db offer_id = None
  | DimDiff offer_id it oldDims newDims =>
      dimensions_mode cfg = true
      /\ exists prev seen,
           select Index.ProductRow.offer_id db offer_id = Some (prev, seen)
           /\ oldDims = Index.old_dims prev
           /\ extractDims it = Ok newDims
           /\ truthy (Index.ProductRow.dim_hash prev) = true
           /\ strict_eq (Index.ProductRow.dim_hash prev) (VStr (sizeFingerprint newDims)) = false
  | AttrDiff offer_id it oldArr newArr =>
      attribute_mode cfg = true
      /\ oldArr = [] /\ newArr = []
      /\ exists prev seen,
           select Index.ProductRow.offer_id db offer_id = Some (prev, seen)
           /\ truthy (Index.ProductRow.attr_hash prev) = true
  | ScanError _ => False
  end.

(** A row that index.js stages over a stored one. *)
Definition index_restaged (db : Index.products) (r : Index.ProductRow.t) : Prop :=
  exists prev seen,
    select Index.ProductRow.offer_id db (Index.ProductRow.offer_id r) = Some (prev, seen)
    /\ (index_row_consistent prev -> index_row_consistent r).

(** *** Invariants of the table and of the log *)

(** A dimension-change message lists a field. *)
Definition lists_a_change (m : message) : Prop :=
  match m with
  | DimDiff _ _ oldDims newDims => diff_lines oldDims newDims <> []
  | _ => True
  end.









(** A record that [iterOffers] yields for an item of a page. *)
Definition yielded_offer (o : value) : Prop :=
  truthy (oget o "offer_id") = true
  /\ exists it, o = VObj [("offer_id", oget it "offer_id");
                          ("product_id", oget it "product_id")].


(** Every offer of a list that can be a key has a row written at [now]. *)
Definition stored_at (now : string) (db : Main.products) (offerIds : list value) : Prop :=
  forall offer_id,
    In offer_id offerIds -> proper_key offer_id ->
    exists r, select Main.ProductRow.offer_id db offer_id = Some (r, now).

(* ================================================================== *)
(** * Properties *)

Local Open Scope list_scope.

Arguments sizeFingerprint : simpl never.
Arguments attrFingerprint : simpl never.

(** The hash is the one of [node:crypto]: the test vectors of FIPS 180-4,
    and the fingerprint of dimensions that are all unknown. *)
Example sha256_vectors :
  SHA256.digest_hex "abc"
    = "ba7816bf8f01cfea414140de5dae2223b00361a396177a9cb410ff61f20015ad"
  /\ SHA256.digest_hex "abcdbcdecdefdefgefghfghighijhijkijkljklmklmnlmnomnopnopq"
    = "248d6a61d20638b8e5c026930c3e6039a33ce45964ff2167f6ecedd419db06c1"
  /\ sizeFingerprint (mkDims VNull VUndef VNull VNull)
    = "c450df0cd31c51a7d31437c3a24ad8e0a3f241cdbd522faadf7336e507585903".
Proof. repeat split; vm_compute; reflexivity. Qed.

(** Numbers are written as JavaScript writes them. *)
Example number_strings :
  map num_to_string
      [Fin 1250 2; Fin 1200 0; Fin 5 3; Fin 1 7; Fin (-123456) 3; Fin (10 ^ 21) 0]
  = ["12.5"; "1200"; "0.005"; "1e-7"; "-123.456"; "1e+21"]%string.
Proof. vm_compute; reflexivity. Qed.

(** The conversions of the specification, a string for a value, and a unit
    that is not a string. *)
Example unit_conversions :
  mm (VInt 1) (VStr "cm") = Ok (VNum (Fin 1000 2))
  /\ mm (VInt 1) (VStr "M") = Ok (VNum (Fin 100000 2))
  /\ grams (VStr " 1.25 ") (VStr "kg") = Ok (VNum (Fin 12500 1))
  /\ mm (VStr "1.006") VUndef = Ok (VNum (Fin 101 2))
  /\ mm (VStr "wide") (VStr "mm") = Ok VNull
  /\ mm (VInt 5) (VInt 3) = Raise TypeError.
Proof. repeat split; vm_compute; reflexivity. Qed.

(** The default sort: by string, [undefined] last, equal strings in the
    order found. *)
Example default_sort :
  sort [VStr "b"; VInt 42; VStr "42"; VStr "a"; VUndef; VInt 7]
  = [VInt 42; VStr "42"; VInt 7; VStr "a"; VStr "b"; VUndef].
Proof. vm_compute; reflexivity. Qed.

Example chunk_by_three : chunk [1; 2; 3; 4; 5; 6; 7] 3 = [[1; 2; 3]; [4; 5; 6]; [7]].
Proof. vm_compute; reflexivity. Qed.

(** An attribute that is an array has the method [values] for values. *)
Example array_attribute_raises :
  pickSizeAttributes [""%string] (VObj [("attributes", VArr [VArr []])])
  = Raise TypeError.
Proof. vm_compute; reflexivity. Qed.

(** The example of the specification, in both implementations: a baseline
    100 x 50 x 20, 300 g, and an observation 120 deep give one notification
    and a stored depth of 120. *)
Example change_detection_end_to_end :
  Index.processBatch cfg_dimensions (post_info [item_C]) "now"
                     [(baseline_C, "before")] [VStr "C"]
  = Index.mkOutcome (Ok tt)
      [(Index.ProductRow.mk (VStr "C") (VInt 3) (VStr "Bowl") (VStr "")
          (VStr (sizeFingerprint
                   (mkDims (VNum (Fin 12000 2)) (VNum (Fin 5000 2))
                           (VNum (Fin 2000 2)) (VNum (Fin 3000 1)))))
          (VNum (Fin 12000 2)) (VNum (Fin 5000 2)) (VNum (Fin 2000 2))
          (VNum (Fin 3000 1)) VNull, "now")]
      [DimDiff (VStr "C") item_C dims_A
               (mkDims (VNum (Fin 12000 2)) (VNum (Fin 5000 2))
                       (VNum (Fin 2000 2)) (VNum (Fin 3000 1)))]
  /\ Main.processBatch cfg_dimensions (post_info [item_C_same_time]) "now"
                       [(main_baseline_C, "before")] [VStr "C"]
  = Main.mkOutcome (Ok tt)
      [(Main.ProductRow.mk (VStr "C") (VInt 3) (VStr "Bowl") (VStr "2024-05-01T10:00:00Z")
          (VStr (sizeFingerprint
                   (mkDims (VNum (Fin 12000 2)) (VNum (Fin 5000 2))
                           (VNum (Fin 2000 2)) (VNum (Fin 3000 1)))))
          (VNum (Fin 12000 2)) (VNum (Fin 5000 2)) (VNum (Fin 2000 2))
          (VNum (Fin 3000 1)), "now")]
      [DimDiff (VStr "C") item_C_same_time dims_A
               (mkDims (VNum (Fin 12000 2)) (VNum (Fin 5000 2))
                       (VNum (Fin 2000 2)) (VNum (Fin 3000 1)))].
Proof. split; vm_compute; reflexivity. Qed.

(* ------------------------------------------------------------------ *)
(** ** Unit normalisation *)

Lemma pow10_pos (n : nat) : 0 < pow10 n.
Proof. unfold pow10. apply Z.pow_pos_nonneg; lia. Qed.

Lemma pow10_S (n : nat) : pow10 (S n) = 10 * pow10 n.
Proof. unfold pow10. rewrite Nat2Z.inj_succ, Z.pow_succ_r; lia. Qed.

Lemma pow10_add (a b : nat) : pow10 (a + b) = pow10 a * pow10 b.
Proof. unfold pow10. rewrite Nat2Z.inj_add, Z.pow_add_r; lia. Qed.












(* ------------------------------------------------------------------ *)
(** ** Extraction of the dimensions *)

Lemma length_zero_iff_nil {A : Type} (l : list A) :
  (List.length l =? 0)%nat = true <-> l = [].
Proof. destruct l; simpl; split; intros H; auto; discriminate. Qed.

(** Claim C5.  When the direct fields of an info record give at least one
    value that is not null, the dimensions extracted are the ones of the
    direct fields, all four of them, whatever the nested object gives; so do
    [extractDims] of index.js and [extractDimsFromInfo] of main.js. *)
Theorem direct_fields_win (it : value) (c1 c2 : dims) :
  nullish it = false ->
  maybe (direct_of it) = Ok c1 ->
  maybe (nested_of it) = Ok c2 ->
  non_null_fields c1 <> [] ->
  extractDims it = Ok c1 /\ Main.extractDimsFromInfo it = Ok c1.
Proof.
  intros Hit H1 H2 Hnn.
  assert (Hlen : (List.length (non_null_fields c1) =? 0)%nat = false).
  { destruct (List.length (non_null_fields c1) =? 0)%nat eqn:E; auto.
    apply length_zero_iff_nil in E. contradiction. }
  unfold extractDims, Main.extractDimsFromInfo, get.
  rewrite Hit. simpl. rewrite H1, H2. simpl. rewrite Hlen. simpl. auto.
Qed.

(** A record 10 deep and 5 wide by its direct fields, 20 by 5 by 3 by its
    nested object: 10 by 5, and no height. *)
Lemma direct_fields_win_witness :
  extractDims info_conflict
    = Ok (mkDims (VNum (Fin 1000 2)) (VNum (Fin 500 2)) VNull VNull)
  /\ Main.extractDimsFromInfo info_conflict
    = Ok (mkDims (VNum (Fin 1000 2)) (VNum (Fin 500 2)) VNull VNull).
Proof.
  apply (direct_fields_win info_conflict _
           (mkDims (VNum (Fin 2000 2)) (VNum (Fin 500 2)) (VNum (Fin 300 2)) VNull)).
  - reflexivity.
  - vm_compute; reflexivity.
  - vm_compute; reflexivity.
  - vm_compute; discriminate.
Defined.

(** main.js takes the root fields of the attributes record when one of
    them gives a value. *)
Lemma main_prefers_attribute_root (info attrs : value) (d : dims) :
  Main.extractDimsFromAttrsRoot attrs = Ok d ->
  Main.hasAny d = true ->
  Main.dims_of info attrs = Ok d.
Proof. intros H Hany. unfold Main.dims_of. rewrite H. simpl. now rewrite Hany. Qed.

(** And falls back on the info record when none does. *)
Lemma main_falls_back_on_info (info attrs : value) (d : dims) :
  Main.extractDimsFromAttrsRoot attrs = Ok d ->
  Main.hasAny d = false ->
  truthy info = true -> Main.keys_length info <> O ->
  Main.dims_of info attrs = Main.extractDimsFromInfo info.
Proof.
  intros H Hany Ht Hk. unfold Main.dims_of. rewrite H. simpl. rewrite Hany, Ht. simpl.
  destruct (Main.keys_length info =? 0)%nat eqn:E; auto.
  apply Nat.eqb_eq in E. contradiction.
Qed.

(** Claim C3.  The two implementations do not extract the same dimensions:
    for an info record 10 deep and an attributes record 20 deep, index.js
    (the info record alone) keeps 10 and main.js (the attributes record
    first) keeps 20, and the two fingerprints differ. *)
Theorem extraction_policies_diverge :
  exists (info attrs : value) (d1 d2 : dims) (x y : num),
    extractDims info = Ok d1
    /\ Main.dims_of info attrs = Ok d2
    /\ depth_mm d1 = VNum x /\ depth_mm d2 = VNum y /\ num_eqb x y = false
    /\ sizeFingerprint d1 <> sizeFingerprint d2.
Proof.
  exists info_conflict, attrs_conflict.
  do 4 eexists.
  split; [vm_compute; reflexivity|].
  split; [vm_compute; reflexivity|].
  split; [reflexivity|]. split; [reflexivity|].
  split; [vm_compute; reflexivity|].
  vm_compute. discriminate.
Qed.

(* ------------------------------------------------------------------ *)
(** ** Selection of the size attributes *)

Lemma pick_loop_spec (patterns : list string) (attrs : list value) :
  Forall well_formed_attribute attrs ->
  forall out,
    pick_loop patterns attrs out
    = Ok (out ++ map picked_of
                   (filter (fun a => matches_pattern patterns (match_name a)) attrs)).
Proof.
  induction 1 as [|a attrs [Ha [vs Hvs]] _ IH]; intros out; simpl.
  - now rewrite app_nil_r.
  - unfold get. rewrite Ha. simpl.
    destruct (matches_pattern patterns (match_name a)) eqn:Hm.
    + rewrite Hvs. simpl. rewrite IH. simpl.
      rewrite <- app_assoc. simpl.
      unfold picked_of at 2, values_of. rewrite Hvs. reflexivity.
    + apply IH.
Qed.

Lemma pick_loop_sound (patterns : list string) (attrs : list value) :
  forall out res,
    pick_loop patterns attrs out = Ok res ->
    res = out ++ map picked_of
                   (filter (fun a => matches_pattern patterns (match_name a)) attrs).
Proof.
  induction attrs as [|a attrs IH]; intros out res; simpl.
  - intros H. inversion H. now rewrite app_nil_r.
  - unfold get. destruct (nullish a); simpl; [discriminate|].
    destruct (matches_pattern patterns (match_name a)) eqn:Hm.
    + destruct (oget a "values" ||| VArr []) as [| | | | |vs| |] eqn:Hv;
        simpl; try discriminate.
      intros H. apply IH in H. rewrite H, <- app_assoc. simpl.
      unfold picked_of at 2, values_of. now rewrite Hv.
    + apply IH.
Qed.

Lemma resolve_value_order (v : value) :
  resolve_value v =
    if negb (nullish (oget v "value")) then oget v "value"
    else if negb (nullish (oget v "text")) then oget v "text"
    else oget v "dictionary_value_id".
Proof.
  unfold resolve_value, coalesce.
  destruct (nullish (oget v "value")) eqn:E1; simpl.
  - destruct (nullish (oget v "text")); reflexivity.
  - rewrite E1. reflexivity.
Qed.

Lemma attrCanonical_cons_not_empty (p : picked) (l : list picked) :
  attrCanonical (p :: l) <> attrCanonical [].
Proof.
  unfold attrCanonical. simpl.
  destruct (map _ l); simpl;
  destruct (name p); simpl; discriminate.
Qed.

(** Claim C10.  For every attributes payload: whenever [pickSizeAttributes]
    returns, and it does on every payload whose attributes are objects with
    an array (or nothing) for values, its result is, for each attribute whose
    name matches, in order, the name, the identifier and the values; a value
    is read as value, else text, else dictionary_value_id; the values kept
    are the truthy ones, so the empty string, 0 and null are dropped; an
    attribute that matches and has only such values stays in the result with
    no value, and the result is then not hashed as the empty list is. *)
Theorem pickSizeAttributes_resolves_and_filters
        (patterns : list string) (attrsItem : value) (attrs : list value) :
  iterate (oget attrsItem "attributes" ||| VArr []) = Ok attrs ->
  (Forall well_formed_attribute attrs ->
   pickSizeAttributes patterns attrsItem
   = Ok (map picked_of
           (filter (fun a => matches_pattern patterns (match_name a)) attrs)))
  /\ (forall out,
        pickSizeAttributes patterns attrsItem = Ok out ->
        out = map picked_of
                (filter (fun a => matches_pattern patterns (match_name a)) attrs))
  /\ (forall v, resolve_value v =
        if negb (nullish (oget v "value")) then oget v "value"
        else if negb (nullish (oget v "text")) then oget v "text"
        else oget v "dictionary_value_id")
  /\ (forall a, values (picked_of a) = filter truthy (map resolve_value (values_of a)))
  /\ truthy (VStr "") = false /\ truthy (VInt 0) = false /\ truthy VNull = false
  /\ (forall a out,
        pickSizeAttributes patterns attrsItem = Ok out ->
        In a attrs ->
        matches_pattern patterns (match_name a) = true ->
        Forall (fun v => truthy (resolve_value v) = false) (values_of a) ->
        In (mkPicked (oget a "name") (oget a "attribute_id") []) out
        /\ attrCanonical out <> attrCanonical []).
Proof.
  intros Hit.
  assert (Hsound : forall out,
    pickSizeAttributes patterns attrsItem = Ok out ->
    out = map picked_of
            (filter (fun a => matches_pattern patterns (match_name a)) attrs)).
  { intros out H. unfold pickSizeAttributes in H. rewrite Hit in H. simpl in H.
    now apply pick_loop_sound in H. }
  split.
  { intros Hwf. unfold pickSizeAttributes. rewrite Hit. simpl.
    now rewrite pick_loop_spec. }
  split; [exact Hsound|].
  split; [apply resolve_value_order|].
  split; [reflexivity|].
  do 3 (split; [reflexivity|]).
  intros a out Hout Hin Hm Hfalsy.
  rewrite (Hsound out Hout).
  assert (Hp : picked_of a = mkPicked (oget a "name") (oget a "attribute_id") []).
  { unfold picked_of. f_equal.
    induction Hfalsy as [|v vs Hv _ IH]; simpl; auto.
    rewrite Hv. exact IH. }
  assert (Hin' : In (picked_of a)
            (map picked_of
               (filter (fun a => matches_pattern patterns (match_name a)) attrs))).
  { apply in_map. apply filter_In. auto. }
  split.
  - rewrite <- Hp. exact Hin'.
  - destruct (map picked_of _) as [|p l]; [contradiction|].
    apply attrCanonical_cons_not_empty.
Qed.

(** Three attributes: a size with an empty value, a zero identifier and a
    null; a colour; a size with a value, a text and an identifier. *)
Lemma pickSizeAttributes_witness :
  pickSizeAttributes default_patterns attrs_payload
    = Ok [mkPicked (VStr "Размер") (VInt 4) [];
          mkPicked (VStr "Size EU") (VInt 9) [VStr "42"; VStr "M"; VInt 971]]
  /\ attrFingerprint [mkPicked (VStr "Размер") (VInt 4) []] <> attrFingerprint [].
Proof.
  split.
  - apply (proj1 (pickSizeAttributes_resolves_and_filters
                    default_patterns attrs_payload
                    [attr_all_falsy; attr_colour; attr_size] eq_refl)).
    repeat constructor; eexists; reflexivity.
  - vm_compute. discriminate.
Defined.

(* ------------------------------------------------------------------ *)
(** ** Fingerprints *)

(** *** The order of the default sort *)

Lemma code_inj (a b : ascii) : code a = code b -> a = b.
Proof.
  unfold code. intros H.
  rewrite <- (ascii_N_embedding a), <- (ascii_N_embedding b). now rewrite H.
Qed.

Lemma str_ltb_irrefl (a : string) : str_ltb a a = false.
Proof.
  induction a as [|c a IH]; simpl; auto.
  rewrite N.ltb_irrefl. exact IH.
Qed.

Lemma str_ltb_trans (a b c : string) :
  str_ltb a b = true -> str_ltb b c = true -> str_ltb a c = true.
Proof.
  revert b c. induction a as [|x a IH]; intros [|y b] [|z c]; simpl; auto;
    try discriminate.
  destruct (code x <? code y)%N eqn:Exy;
    destruct (code y <? code x)%N eqn:Eyx;
    destruct (code y <? code z)%N eqn:Eyz;
    destruct (code z <? code y)%N eqn:Ezy;
    destruct (code x <? code z)%N eqn:Exz;
    destruct (code z <? code x)%N eqn:Ezx;
    try discriminate; auto;
    rewrite ?N.ltb_lt, ?N.ltb_ge in *; try lia.
  apply IH.
Qed.

Lemma str_ltb_total (a b : string) :
  str_ltb a b = false -> str_ltb b a = false -> a = b.
Proof.
  revert b. induction a as [|x a IH]; intros [|y b]; simpl; auto; try discriminate.
  destruct (code x <? code y)%N eqn:Exy; [discriminate|].
  destruct (code y <? code x)%N eqn:Eyx; [discriminate|].
  intros H1 H2. rewrite N.ltb_ge in *.
  f_equal; [apply code_inj; lia | now apply IH].
Qed.

Lemma str_le_lt_trans (x z y : string) :
  str_ltb z x = false -> str_ltb z y = true -> str_ltb x y = true.
Proof.
  intros Hzx Hzy.
  destruct (str_ltb x z) eqn:Hxz.
  - eapply str_ltb_trans; eauto.
  - rewrite (str_ltb_total x z); auto.
Qed.

Lemma str_ltb_asym (a b : string) : str_ltb a b = true -> str_ltb b a = false.
Proof.
  intros H. destruct (str_ltb b a) eqn:E; auto.
  pose proof (str_ltb_trans _ _ _ H E) as C. now rewrite str_ltb_irrefl in C.
Qed.

Lemma sort_insert_comm (x y : value) (l : list value) :
  (to_string x = to_string y -> x = y) ->
  sort_insert x (sort_insert y l) = sort_insert y (sort_insert x l).
Proof.
  intros Hxy.
  assert (Hbase : forall t,
    (if str_ltb (to_string y) (to_string x) then y :: x :: t else x :: y :: t)
    = (if str_ltb (to_string x) (to_string y) then x :: y :: t else y :: x :: t)).
  { intros t.
    destruct (str_ltb (to_string y) (to_string x)) eqn:Eyx.
    - now rewrite (str_ltb_asym _ _ Eyx).
    - destruct (str_ltb (to_string x) (to_string y)) eqn:Exy; auto.
      rewrite (Hxy (str_ltb_total _ _ Exy Eyx)). reflexivity. }
  induction l as [|z l IH]; simpl.
  - apply Hbase.
  - destruct (str_ltb (to_string z) (to_string y)) eqn:Ezy;
      destruct (str_ltb (to_string z) (to_string x)) eqn:Ezx; simpl;
      rewrite ?Ezy, ?Ezx.
    + now rewrite IH.
    + rewrite (str_le_lt_trans _ _ _ Ezx Ezy). simpl. rewrite ?Ezy. reflexivity.
    + rewrite (str_le_lt_trans _ _ _ Ezy Ezx). simpl. rewrite ?Ezx. reflexivity.
    + apply Hbase.
Qed.

Lemma told_apart_perm (l1 l2 : list value) :
  Permutation l1 l2 -> told_apart l1 -> told_apart l2.
Proof.
  intros HP H x y Hx Hy E.
  apply H; auto; apply (Permutation_in _ (Permutation_sym HP)); assumption.
Qed.

Lemma isort_perm (l1 l2 : list value) :
  Permutation l1 l2 -> told_apart l1 ->
  fold_right sort_insert [] l1 = fold_right sort_insert [] l2.
Proof.
  induction 1 as [|x l1 l2 HP IH|x y l|l1 l2 l3 HP1 IH1 HP2 IH2]; intros Hta; simpl.
  - reflexivity.
  - rewrite IH; auto. intros a b Ha Hb. apply Hta; now right.
  - apply sort_insert_comm. intros E. symmetry. apply Hta; simpl; auto.
  - rewrite IH1; auto. apply IH2. eapply told_apart_perm; eauto.
Qed.

Lemma filter_perm {A : Type} (f : A -> bool) (l1 l2 : list A) :
  Permutation l1 l2 -> Permutation (filter f l1) (filter f l2).
Proof.
  induction 1; simpl; auto.
  - destruct (f x); auto.
  - destruct (f x), (f y); auto. apply perm_swap.
  - eapply perm_trans; eauto.
Qed.

Lemma filter_undef_repeat (l : list value) :
  filter is_undef l = repeat VUndef (List.length (filter is_undef l)).
Proof.
  induction l as [|v l IH]; simpl; auto.
  destruct v; simpl; auto. now f_equal.
Qed.

Lemma sort_perm (l1 l2 : list value) :
  Permutation l1 l2 -> told_apart l1 -> sort l1 = sort l2.
Proof.
  intros HP Hta. unfold sort. f_equal.
  - apply isort_perm.
    + now apply filter_perm.
    + intros x y Hx Hy. apply filter_In in Hx, Hy. apply Hta; tauto.
  - rewrite (filter_undef_repeat l1), (filter_undef_repeat l2).
    f_equal. apply Permutation_length. now apply filter_perm.
Qed.

Lemma strings_told_apart (l : list value) : Forall is_string l -> told_apart l.
Proof.
  intros H x y Hx Hy. rewrite Forall_forall in H.
  destruct (H x Hx) as [s ->]. destruct (H y Hy) as [t ->]. simpl. congruence.
Qed.

(** *** Numbers are written in one way *)

(** [strip] keeps the number and returns its canonical representation. *)
Lemma strip_spec (s : nat) : forall m,
  m * pow10 (snd (strip m s)) = fst (strip m s) * pow10 s
  /\ (snd (strip m s) = O \/ fst (strip m s) mod 10 <> 0).
Proof.
  induction s as [|s IH]; intros m; simpl.
  - split; auto.
  - destruct (m mod 10 =? 0) eqn:E.
    + apply Z.eqb_eq in E. destruct (IH (m / 10)) as [H1 H2]. split; auto.
      rewrite pow10_S.
      rewrite (Z.div_mod m 10) at 1 by lia. rewrite E. 
      replace (10 * (m / 10) + 0) with (10 * (m / 10)) by lia.
      rewrite <- Z.mul_assoc, H1. lia.
    + apply Z.eqb_neq in E. simpl. split; auto.
Qed.

Lemma canonical_unique (a b : Z) (i j : nat) :
  (i = O \/ a mod 10 <> 0) -> (j = O \/ b mod 10 <> 0) ->
  a * pow10 j = b * pow10 i -> a = b /\ i = j.
Proof.
  intros Hi Hj E.
  destruct (Nat.lt_trichotomy i j) as [L|[L|L]].
  - exfalso. destruct Hj as [Hj|Hj]; [lia|]. apply Hj.
    replace j with (i + S (j - i - 1))%nat in E by lia.
    rewrite pow10_add, pow10_S in E.
    pose proof (pow10_pos i).
    assert (b = a * pow10 (j - i - 1) * 10) by nia.
    subst b. apply Z.mod_mul. lia.
  - subst j. pose proof (pow10_pos i). split; auto. nia.
  - exfalso. destruct Hi as [Hi|Hi]; [lia|]. apply Hi.
    replace i with (j + S (i - j - 1))%nat in E by lia.
    rewrite pow10_add, pow10_S in E.
    pose proof (pow10_pos j).
    assert (a = b * pow10 (i - j - 1) * 10) by nia.
    subst a. apply Z.mod_mul. lia.
Qed.

Lemma strip_respects (m1 m2 : Z) (s1 s2 : nat) :
  m1 * pow10 s2 = m2 * pow10 s1 -> strip m1 s1 = strip m2 s2.
Proof.
  intros E.
  destruct (strip_spec s1 m1) as [A1 C1].
  destruct (strip_spec s2 m2) as [A2 C2].
  destruct (strip m1 s1) as [a i]. destruct (strip m2 s2) as [b j]. simpl in *.
  destruct (canonical_unique a b i j C1 C2); [|congruence].
  pose proof (pow10_pos s1). pose proof (pow10_pos s2).
  apply (Z.mul_reg_r _ _ (pow10 s1 * pow10 s2)); [nia|].
  transitivity (m1 * pow10 s2 * pow10 i * pow10 j).
  - rewrite <- !Z.mul_assoc, (Z.mul_comm (pow10 j)), !Z.mul_assoc.
    rewrite <- A1. ring.
  - rewrite E. 
    transitivity (m2 * pow10 j * pow10 s1 * pow10 i); [ring|].
    rewrite A2. ring.
Qed.

Lemma num_to_string_respects (x y : num) :
  num_eqb x y = true -> isFinite x = true ->
  num_to_string x = num_to_string y.
Proof.
  destruct x as [| | |m1 s1], y as [| | |m2 s2]; simpl; try discriminate.
  intros E _. apply Z.eqb_eq in E.
  pose proof (pow10_pos s1). pose proof (pow10_pos s2).
  destruct (m1 =? 0) eqn:Z1; destruct (m2 =? 0) eqn:Z2;
    rewrite ?Z.eqb_eq, ?Z.eqb_neq in *; auto; try nia.
  destruct (m1 <? 0) eqn:N1; destruct (m2 <? 0) eqn:N2;
    rewrite ?Z.ltb_lt, ?Z.ltb_ge in *; try nia.
  - unfold pos_to_string. rewrite (strip_respects (- m1) (- m2) s1 s2) by lia.
    reflexivity.
  - unfold pos_to_string. rewrite (strip_respects m1 m2 s1 s2) by lia.
    reflexivity.
Qed.

Lemma stringify_same_field (a b : value) :
  same_field a b -> stringify (a ??? VNull) = stringify (b ??? VNull).
Proof.
  intros [->|[[Ha Hb]|(x & y & -> & -> & E)]]; auto.
  - unfold coalesce. now rewrite Ha, Hb.
  - unfold coalesce. simpl.
    destruct (isFinite x) eqn:Fx.
    + assert (Fy : isFinite y = true) by (destruct x, y; simpl in *; congruence).
      rewrite Fy. now apply num_to_string_respects.
    + destruct x, y; simpl in *; congruence.
Qed.

Lemma json_props_cons (f : value -> string) (k : string) (x : value)
      (r : list (string * value)) :
  json_props f ((k, x) :: r)
  = match x with
    | VUndef | VFun => []
    | _ => [(json_quote k ++ ":" ++ f x)%string]
    end ++ json_props f r.
Proof. reflexivity. Qed.

Lemma json_props_same_field (k : string) (a b : value)
      (r1 r2 : list (string * value)) :
  same_field a b ->
  json_props stringify r1 = json_props stringify r2 ->
  json_props stringify ((k, a ??? VNull) :: r1)
  = json_props stringify ((k, b ??? VNull) :: r2).
Proof.
  intros H Hr. pose proof (stringify_same_field a b H) as Hs.
  rewrite !json_props_cons, Hr. f_equal.
  destruct H as [->|[[Ha Hb]|(x & y & -> & -> & E)]]; auto.
  - unfold coalesce. now rewrite Ha, Hb.
  - unfold coalesce in *. cbn [nullish] in *. now rewrite Hs.
Qed.

Lemma sizeCanonical_respects (d1 d2 : dims) :
  same_dims d1 d2 -> sizeCanonical d1 = sizeCanonical d2.
Proof.
  intros (Hd & Hw & Hh & Hg). unfold sizeCanonical.
  cbn [stringify]. do 3 f_equal.
  repeat (apply json_props_same_field; [assumption|]).
  reflexivity.
Qed.

Lemma attrCanonical_respects (l1 l2 : list picked) :
  Forall2 same_up_to_value_order l1 l2 ->
  Forall (fun a => told_apart (values a)) l1 ->
  attrCanonical l1 = attrCanonical l2.
Proof.
  intros H Hta. unfold attrCanonical. do 2 f_equal.
  induction H as [|a b l1 l2 (Hn & Hi & Hp) _ IH]; simpl; auto.
  inversion Hta; subst.
  rewrite Hn, Hi, (sort_perm _ _ Hp); auto.
  now rewrite IH.
Qed.


(** Claim C8, as amended.  Dimensions that are equal field by field (the
    same number however it is written, or nothing on both sides) have the
    same fingerprint; and two lists of selected attributes that differ only
    in the order of the values inside an attribute have the same fingerprint
    when the values of each attribute are told apart by their strings, as
    they are when all of them are strings. *)
Theorem fingerprints_respect_equality :
  (forall d1 d2 : dims, same_dims d1 d2 -> sizeFingerprint d1 = sizeFingerprint d2)
  /\ (forall l1 l2 : list picked,
        Forall2 same_up_to_value_order l1 l2 ->
        Forall (fun a => told_apart (values a)) l1 ->
        attrFingerprint l1 = attrFingerprint l2)
  /\ (forall l : list value, Forall is_string l -> told_apart l).
Proof.
  split; [|split].
  - intros d1 d2 H. unfold sizeFingerprint. now rewrite (sizeCanonical_respects d1 d2).
  - intros l1 l2 H Hta. unfold attrFingerprint.
    now rewrite (attrCanonical_respects l1 l2).
  - apply strings_told_apart.
Qed.

(** 10.00 and 10, 0.5 and 0.50, null and undefined; the sizes M, L, XL and
    XL, M, L. *)
Lemma fingerprints_respect_equality_witness :
  sizeFingerprint (mkDims (VNum (Fin 1000 2)) VNull VUndef (VNum (Fin 5 1)))
  = sizeFingerprint (mkDims (VInt 10) VUndef VNull (VNum (Fin 50 2)))
  /\ attrFingerprint sizes_ab = attrFingerprint sizes_ba.
Proof.
  split.
  - apply (proj1 fingerprints_respect_equality).
    unfold same_dims; simpl. split; [|split; [|split]].
    + right; right. exists (Fin 1000 2), (Fin 10 0). repeat split.
    + right; left. split; reflexivity.
    + right; left. split; reflexivity.
    + right; right. exists (Fin 5 1), (Fin 50 2). repeat split.
  - apply (proj1 (proj2 fingerprints_respect_equality)).
    + repeat constructor. simpl.
      apply Permutation_sym. apply (Permutation_cons_app [VStr "M"; VStr "L"] []).
      reflexivity.
    + repeat constructor. apply (proj2 (proj2 fingerprints_respect_equality)).
      repeat constructor; eexists; reflexivity.
Defined.

(** Claim C8 as stated fails: an attribute with the value 42 as a string and
    the dictionary identifier 42 as a number, selected in the two orders,
    has the same name, identifier and values, and two fingerprints (the sort
    compares the strings of the values, which are equal, and keeps the order
    it found). *)
Lemma mixed_values_break_order_independence :
  pickSizeAttributes default_patterns (attr_mixed value_42 dictionary_42) = Ok mixed_ab
  /\ pickSizeAttributes default_patterns (attr_mixed dictionary_42 value_42) = Ok mixed_ba
  /\ Forall2 same_up_to_value_order mixed_ab mixed_ba
  /\ attrFingerprint mixed_ab <> attrFingerprint mixed_ba.
Proof.
  split; [vm_compute; reflexivity|]. split; [vm_compute; reflexivity|].
  split.
  - repeat constructor.
  - vm_compute. discriminate.
Qed.

(* ------------------------------------------------------------------ *)
(** ** The products table *)

Lemma num_eqb_euclid (a b c : num) :
  num_eqb a b = true -> num_eqb a c = true -> num_eqb b c = true.
Proof.
  destruct a as [| | |m1 s1], b as [| | |m2 s2], c as [| | |m3 s3]; simpl;
    try discriminate; auto.
  rewrite !Z.eqb_eq. intros H1 H2.
  pose proof (pow10_pos s1).
  apply (Z.mul_reg_r _ _ (pow10 s1)); [lia|].
  transitivity (m2 * pow10 s1 * pow10 s3); [ring|].
  rewrite <- H1.
  transitivity (m1 * pow10 s3 * pow10 s2); [ring|].
  rewrite H2. ring.
Qed.

Lemma strict_eq_euclid (a b c : value) :
  strict_eq a b = true -> strict_eq a c = true -> strict_eq b c = true.
Proof.
  destruct a, b; simpl; try discriminate; destruct c; simpl; try discriminate; auto.
  - destruct b, b0, b1; simpl; auto.
  - apply num_eqb_euclid.
  - rewrite !String.eqb_eq. congruence.
Qed.

Section TableFacts.
Variable row : Type.
Variable key : row -> value.

Lemma select_upsert_other (now : string) (r : row) (k : value) (t : table row) :
  strict_eq (key r) k = false ->
  select key (upsert key now r t) k = select key t k.
Proof.
  intros Hk. induction t as [|[r' seen] t IH]; simpl.
  - now rewrite Hk.
  - destruct (strict_eq (key r') (key r)) eqn:E; simpl.
    + rewrite Hk.
      destruct (strict_eq (key r') k) eqn:E'; auto.
      rewrite (strict_eq_euclid _ _ _ E E') in Hk. discriminate.
    + destruct (strict_eq (key r') k); auto.
Qed.

Lemma select_txUpsertMany_other (now : string) (k : value) (rows : list row) :
  Forall (fun r => strict_eq (key r) k = false) rows ->
  forall t, select key (txUpsertMany key now rows t) k = select key t k.
Proof.
  unfold txUpsertMany.
  induction 1 as [|r rows Hr _ IH]; intros t; simpl; auto.
  rewrite IH. now apply select_upsert_other.
Qed.
End TableFacts.

Lemma num_eqb_zero (x y : num) :
  num_eqb x y = true -> num_is_zero x = num_is_zero y.
Proof.
  destruct x as [| | |m1 s1], y as [| | |m2 s2]; simpl; try discriminate; auto.
  rewrite Z.eqb_eq. intros E.
  pose proof (pow10_pos s1). pose proof (pow10_pos s2).
  destruct (m1 =? 0) eqn:Z1; destruct (m2 =? 0) eqn:Z2;
    rewrite ?Z.eqb_eq, ?Z.eqb_neq in *; auto; nia.
Qed.

Lemma strict_eq_truthy (a b : value) : strict_eq a b = true -> truthy a = truthy b.
Proof.
  destruct a, b; simpl; try discriminate; auto.
  - destruct b, b0; simpl; auto; discriminate.
  - intros E. pose proof (num_eqb_zero _ _ E).
    destruct n, n0; simpl in *; try discriminate; auto. now rewrite H.
  - rewrite String.eqb_eq. now intros ->.
Qed.

(* ------------------------------------------------------------------ *)
(** ** Batches *)

Lemma chunk_spec {A : Type} (arr : list A) (n : nat) :
  chunk arr n
  = map (fun i => slice arr i (i + n))
        (filter (fun i => ((n =? 0) || (i mod n =? 0))%nat) (seq 0 (List.length arr))).
Proof.
  unfold chunk.
  assert (G : forall l acc,
    fold_left
      (fun acc i =>
         if ((n =? 0) || (i mod n =? 0))%nat then acc ++ [slice arr i (i + n)] else acc)
      l acc
    = acc ++ map (fun i => slice arr i (i + n))
                 (filter (fun i => ((n =? 0) || (i mod n =? 0))%nat) l)).
  { induction l as [|i l IH]; intros acc; simpl.
    - now rewrite app_nil_r.
    - rewrite IH. destruct ((n =? 0) || (i mod n =? 0))%nat; simpl; auto.
      now rewrite <- app_assoc. }
  apply G.
Qed.

Lemma chunk_lengths {A : Type} (arr : list A) (n : nat) :
  Forall (fun bb => (List.length bb <= n)%nat) (chunk arr n).
Proof.
  rewrite chunk_spec. apply Forall_forall. intros bb Hin.
  apply in_map_iff in Hin. destruct Hin as (i & <- & _).
  unfold slice. rewrite length_firstn. lia.
Qed.

Lemma firstn_plus {A : Type} (a b : nat) (l : list A) :
  firstn (a + b) l = firstn a l ++ firstn b (skipn a l).
Proof.
  revert l. induction a as [|a IH]; intros l; simpl; auto.
  destruct l as [|x l]; simpl.
  - now rewrite firstn_nil.
  - now rewrite IH.
Qed.

Lemma chunk_concat {A : Type} (arr : list A) (n : nat) :
  (0 < n)%nat -> List.concat (chunk arr n) = arr.
Proof.
  intros Hn. rewrite chunk_spec.
  assert (G : forall L,
    exists q,
      List.concat (map (fun i => slice arr i (i + n))
                  (filter (fun i => ((n =? 0) || (i mod n =? 0))%nat) (seq 0 L)))
      = firstn (q * n) arr
      /\ (L <= q * n < L + n)%nat).
  { induction L as [|L (q & Hc & Hq)].
    - exists O. simpl. split; [reflexivity|lia].
    - rewrite seq_S, filter_app, map_app, concat_app, Hc. simpl.
      replace (n =? 0)%nat with false by (symmetry; apply Nat.eqb_neq; lia).
      simpl.
      destruct (L mod n =? 0)%nat eqn:E.
      + apply Nat.eqb_eq in E. apply Nat.Div0.mod_divides in E.
        destruct E as [c Hc']. 
        assert (q = c) by nia. subst q.
        exists (S c). split; [|nia].
        simpl. rewrite app_nil_r. unfold slice.
        replace (L + n - L)%nat with n by lia.
        replace (n + c * n)%nat with (L + n)%nat by nia.
        rewrite firstn_plus. f_equal. f_equal. nia.
      + apply Nat.eqb_neq in E.
        exists q. simpl. rewrite app_nil_r. split; [reflexivity|].
        assert (L <> q * n)%nat.
        { intros ->. apply E. apply Nat.Div0.mod_mul. }
        lia. }
  destruct (G (List.length arr)) as (q & -> & Hq).
  apply firstn_all2. lia.
Qed.



(* ------------------------------------------------------------------ *)
(** ** The reconciler of index.js *)

Lemma index_loop_app cfg db attrs (pre l : list value) :
  forall st0,
    Index.loop cfg db attrs (pre ++ l) st0 =
    match Index.loop cfg db attrs pre st0 with
    | (Ok Continue, st) => Index.loop cfg db attrs l st
    | other => other
    end.
Proof.
  induction pre as [|it pre IH]; intros st0; simpl; auto.
  destruct (Index.reconcile cfg db attrs it st0) as [[[|] st']|e]; auto.
Qed.

Lemma index_reconcile_new cfg db attrs it st o d :
  get it "offer_id" = Ok o ->
  truthy (item_offer_id it) = true ->
  select Index.ProductRow.offer_id db (item_offer_id it) = None ->
  extractDims it = Ok d ->
  Index.reconcile cfg db attrs it st =
  Ok (Return,
      Index.push (Index.baseline_row (item_offer_id it) it d)
        (Index.notify_if
           (String.eqb (toLowerCase (env_or (NOTIFY_ON_NEW_PRODUCT cfg) "false")) "true")
           (NewProduct (item_offer_id it) it d) st)).
Proof.
  intros Ho Ht Hs Hd. unfold Index.reconcile.
  assert (o = oget it "offer_id").
  { unfold get in Ho. destruct (nullish it); congruence. }
  subst o. rewrite Ho. simpl. fold (item_offer_id it).
  rewrite Ht. simpl. rewrite Hs, Hd. reflexivity.
Qed.

(** Claim C1.  In index.js an offer with no baseline stages one upsert and
    sends no change notification, and there the batch ends: the branch
    leaves [processBatch] (where its comment says it moves on to the next
    product), so that nothing staged so far is committed, this upsert
    included, and the offers after it are not looked at. *)
Theorem new_offer_ends_the_batch
        (cfg : config) (post : ozon) (now : string) (db : Index.products)
        (offerIds : list value) (attrsByOffer : list (value * value))
        (pre rest : list value) (it o : value) (d : dims) (st : Index.progress) :
  Index.fetch_attrs cfg post offerIds = Ok attrsByOffer ->
  iterate (fetch_info post offerIds) = Ok (pre ++ it :: rest) ->
  Index.loop cfg db attrsByOffer pre (Index.mkProgress [] []) = (Ok Continue, st) ->
  get it "offer_id" = Ok o ->
  truthy (item_offer_id it) = true ->
  select Index.ProductRow.offer_id db (item_offer_id it) = None ->
  extractDims it = Ok d ->
  exists st',
    Index.loop cfg db attrsByOffer (pre ++ it :: rest) (Index.mkProgress [] [])
      = (Ok Return, st')
    /\ Index.upserts st' = Index.upserts st ++ [Index.baseline_row (item_offer_id it) it d]
    /\ (forall m, In m (Index.sent st') -> ~ In m (Index.sent st) ->
                  is_change_message m = false)
    /\ Index.processBatch cfg post now db offerIds
       = Index.mkOutcome (Ok tt) db (Index.sent st').
Proof.
  intros Hattrs Hitems Hpre Ho Ht Hs Hd.
  eexists. split; [|split; [|split]].
  - rewrite index_loop_app, Hpre. simpl.
    rewrite (index_reconcile_new cfg db attrsByOffer it st o d); auto.
  - unfold Index.notify_if. destruct (String.eqb _ "true"); reflexivity.
  - simpl. intros m Hin Hnot. unfold Index.notify_if, Index.notifyAll in Hin.
    destruct (String.eqb _ "true"); simpl in Hin.
    + apply in_app_or in Hin. destruct Hin as [Hin|[<-|[]]]; [contradiction|reflexivity].
    + contradiction.
  - unfold Index.processBatch. rewrite Hattrs, Hitems.
    rewrite index_loop_app, Hpre. simpl.
    rewrite (index_reconcile_new cfg db attrsByOffer it st o d); auto.
Qed.

(** A and B are both new: A is staged, nothing is stored, B is not seen. *)
Lemma new_offer_ends_the_batch_witness :
  exists st',
    Index.loop cfg_dimensions [] [] ([] ++ item_A :: [item_B]) (Index.mkProgress [] [])
      = (Ok Return, st')
    /\ Index.upserts st'
       = [] ++ [Index.baseline_row (item_offer_id item_A) item_A
                  (mkDims (VNum (Fin 10000 2)) (VNum (Fin 5000 2))
                          (VNum (Fin 2000 2)) (VNum (Fin 3000 1)))]
    /\ (forall m, In m (Index.sent st') -> ~ In m [] -> is_change_message m = false)
    /\ Index.processBatch cfg_dimensions (post_info [item_A; item_B]) "now" []
                          [VStr "A"; VStr "B"]
       = Index.mkOutcome (Ok tt) [] (Index.sent st').
Proof.
  apply (new_offer_ends_the_batch cfg_dimensions (post_info [item_A; item_B]) "now" []
           [VStr "A"; VStr "B"] [] [] [item_B] item_A (VStr "A") _
           (Index.mkProgress [] [])); reflexivity.
Defined.

(** main.js stages one row for every identifier it goes through. *)
Lemma main_reconcile_always_stages db infoByOffer attrsByOffer offer_id st st' :
  Main.reconcile db infoByOffer attrsByOffer offer_id st = Ok st' ->
  exists r, Main.upserts st' = Main.upserts st ++ [r]
            /\ Main.ProductRow.offer_id r = offer_id.
Proof.
  unfold Main.reconcile.
  destruct (Main.dims_of _ _) as [d|e]; simpl; [|discriminate].
  intros H; inversion H; subst. eexists. split; reflexivity.
Qed.

(** main.js does what claim C1 says: an offer with no baseline stages its
    one upsert and sends nothing, and the loop goes on to the end of the
    batch, one row for each identifier. *)
Lemma main_new_offer_staged_once db infoByOffer attrsByOffer offer_id st st' :
  select Main.ProductRow.offer_id db offer_id = None ->
  Main.reconcile db infoByOffer attrsByOffer offer_id st = Ok st' ->
  Main.sent st' = Main.sent st
  /\ exists r, Main.upserts st' = Main.upserts st ++ [r]
               /\ Main.ProductRow.offer_id r = offer_id.
Proof.
  intros Hs H. split; [|eapply main_reconcile_always_stages; eauto].
  unfold Main.reconcile in H. rewrite Hs in H.
  destruct (Main.dims_of _ _) as [d|e]; simpl in H; [|discriminate].
  now inversion H.
Qed.

Lemma main_loop_stages_each db infoByOffer attrsByOffer (offerIds : list value) :
  forall st st',
    Main.loop db infoByOffer attrsByOffer offerIds st = (Ok tt, st') ->
    exists rows,
      Main.upserts st' = Main.upserts st ++ rows
      /\ map Main.ProductRow.offer_id rows = offerIds.
Proof.
  induction offerIds as [|offer_id rest IH]; intros st st' H; simpl in H.
  - inversion H; subst. exists []. now rewrite app_nil_r.
  - destruct (Main.reconcile db infoByOffer attrsByOffer offer_id st) as [st1|e] eqn:E;
      [|discriminate].
    destruct (main_reconcile_always_stages _ _ _ _ _ _ E) as (r & Hr & Hid).
    destruct (IH _ _ H) as (rows & Hrows & Hids).
    exists (r :: rows). split.
    + rewrite Hrows, Hr, <- app_assoc. reflexivity.
    + simpl. now rewrite Hid, Hids.
Qed.

(** *** What index.js stages *)

Lemma index_upserts_notify_if (b : bool) (m : message) (st : Index.progress) :
  Index.upserts (Index.notify_if b m st) = Index.upserts st.
Proof. destruct b; reflexivity. Qed.

Ltac staged :=
  let H := fresh in
  intros H; inversion H; subst; eexists;
  split; [cbn [Index.push Index.upserts]; rewrite ?index_upserts_notify_if; reflexivity
         |repeat constructor].

Lemma index_reconcile_stages cfg db attrs it st f st' :
  Index.reconcile cfg db attrs it st = Ok (f, st') ->
  exists rows,
    Index.upserts st' = Index.upserts st ++ rows
    /\ Forall (fun r => Index.ProductRow.offer_id r = item_offer_id it) rows.
Proof.
  unfold Index.reconcile, get.
  destruct (nullish it); simpl; [discriminate|].
  fold (item_offer_id it).
  destruct (truthy (item_offer_id it)); simpl;
    [|intros H; inversion H; subst; exists []; now rewrite app_nil_r].
  destruct (select Index.ProductRow.offer_id db (item_offer_id it)) as [[prev seen]|].
  - destruct (Index.fast_path cfg prev _); [staged|].
    destruct (extractDims it) as [d|e]; simpl; [|discriminate].
    destruct (attribute_mode cfg); simpl; [|staged].
    destruct (truthy (Map_get attrs (item_offer_id it))); simpl; [|staged].
    destruct (pickSizeAttributes _ _); simpl; [staged|discriminate].
  - destruct (extractDims it) as [d|e]; simpl; [staged|discriminate].
Qed.

Lemma index_loop_stages cfg db attrs (k : value) (items : list value) :
  Forall (fun it => strict_eq (item_offer_id it) k = false) items ->
  forall st res st',
    Index.loop cfg db attrs items st = (res, st') ->
    Forall (fun r => strict_eq (Index.ProductRow.offer_id r) k = false) (Index.upserts st) ->
    Forall (fun r => strict_eq (Index.ProductRow.offer_id r) k = false) (Index.upserts st').
Proof.
  induction 1 as [|it items Hit _ IH]; intros st res st' Hl Hst; simpl in Hl.
  - inversion Hl; subst; auto.
  - destruct (Index.reconcile cfg db attrs it st) as [[f st1]|e] eqn:E.
    + destruct (index_reconcile_stages _ _ _ _ _ _ _ E) as (rows & Hu & Hrows).
      assert (H1 : Forall (fun r => strict_eq (Index.ProductRow.offer_id r) k = false)
                          (Index.upserts st1)).
      { rewrite Hu. apply Forall_app. split; auto.
        eapply Forall_impl; [|exact Hrows]. simpl. intros r ->. exact Hit. }
      destruct f.
      * eapply IH; eauto.
      * inversion Hl; subst; auto.
    + inversion Hl; subst; auto.
Qed.

Lemma index_unfetched_offer_untouched
      (cfg : config) (post : ozon) (now : string) (db : Index.products)
      (offerIds items : list value) (k : value) :
  iterate (fetch_info post offerIds) = Ok items ->
  Forall (fun it => strict_eq (item_offer_id it) k = false) items ->
  select Index.ProductRow.offer_id
         (Index.db_after (Index.processBatch cfg post now db offerIds)) k
  = select Index.ProductRow.offer_id db k.
Proof.
  intros Hitems Hk. unfold Index.processBatch. rewrite Hitems.
  destruct (Index.fetch_attrs cfg post offerIds) as [attrs|e]; simpl; auto.
  destruct (Index.loop cfg db attrs items (Index.mkProgress [] [])) as [[[|]|e] st] eqn:E;
    simpl; auto.
  unfold Index.commit. destruct (is_empty (Index.upserts st)); auto.
  apply select_txUpsertMany_other.
  eapply index_loop_stages; eauto.
Qed.

(** In main.js an identifier with no record of either kind is given a stub
    for info record, which has no dimension, and a row with nothing in it. *)
Lemma main_stub_has_no_dimension (offer_id : value) :
  Main.dims_of (VObj [("offer_id", offer_id)]) (VObj [])
  = Ok (mkDims VNull VNull VNull VNull).
Proof. reflexivity. Qed.

Lemma main_unfetched_offer_blank
      (db : Main.products) (infoByOffer attrsByOffer : list (value * value))
      (offer_id : value) (st : Main.progress) :
  truthy (Map_get infoByOffer offer_id) = false ->
  truthy (Map_get attrsByOffer offer_id) = false ->
  exists sent',
    Main.reconcile db infoByOffer attrsByOffer offer_id st
    = Ok (Main.mkProgress
            (Main.upserts st ++
               [Main.ProductRow.mk offer_id (VInt 0) (VStr "") (VStr "")
                  (VStr (sizeFingerprint (mkDims VNull VNull VNull VNull)))
                  VNull VNull VNull VNull])
            sent').
Proof.
  intros Hi Ha.
  assert (Hinfo : Map_get infoByOffer offer_id ||| VObj [("offer_id", offer_id)]
                  = VObj [("offer_id", offer_id)])
    by (unfold or_else; now rewrite Hi).
  assert (Hattrs : Map_get attrsByOffer offer_id ||| VObj [] = VObj [])
    by (unfold or_else; now rewrite Ha).
  unfold Main.reconcile. rewrite Hinfo, Hattrs, main_stub_has_no_dimension.
  eexists. reflexivity.
Qed.

(** Claim C2.  In main.js an offer that no fetch returned is staged all the
    same: with the catalogue out of reach, the baseline of A is replaced by
    a row with no name, no date and no dimension, and the subscribers are
    told that its dimensions changed. *)
Theorem unfetched_offer_is_overwritten :
  fetch_info post_down [VStr "A"] = VArr []
  /\ Main.processBatch cfg_dimensions post_down "now" [(stored_A, "before")] [VStr "A"]
     = Main.mkOutcome (Ok tt) [(blank_A, "now")]
         [DimDiff (VStr "A") (VObj [("offer_id", VStr "A")])
                  (mkDims (VInt 100) (VInt 50) (VInt 20) (VInt 300))
                  (mkDims VNull VNull VNull VNull)].
Proof. split; vm_compute; reflexivity. Qed.


(* ------------------------------------------------------------------ *)
(** ** The early exit of index.js *)

(** Claim C4, as amended.  In index.js, for an offer with a baseline, in the
    mode DIMENSIONS, when the incoming [updated_at] is not empty and equal
    to the stored one, one upsert is staged and nothing is notified; the
    row staged has the fingerprints and the four dimensions of the prior
    row, and the identifier, product, name and date of the incoming
    record. *)
Theorem fast_path_carries_dimensions
        (cfg : config) (db : Index.products) (attrsByOffer : list (value * value))
        (it o : value) (st : Index.progress) (prev : Index.ProductRow.t) (seen : string) :
  get it "offer_id" = Ok o ->
  truthy (item_offer_id it) = true ->
  select Index.ProductRow.offer_id db (item_offer_id it) = Some (prev, seen) ->
  SIZE_TRACKING_MODE cfg = "DIMENSIONS" ->
  truthy (oget it "updated_at" ||| oget it "updatedAt" ||| VStr "") = true ->
  strict_eq (Index.ProductRow.updated_at prev)
            (oget it "updated_at" ||| oget it "updatedAt" ||| VStr "") = true ->
  exists r,
    Index.reconcile cfg db attrsByOffer it st
      = Ok (Continue, Index.mkProgress (Index.upserts st ++ [r]) (Index.sent st))
    /\ Index.ProductRow.dim_hash r = Index.ProductRow.dim_hash prev
    /\ Index.ProductRow.depth_mm r = Index.ProductRow.depth_mm prev
    /\ Index.ProductRow.width_mm r = Index.ProductRow.width_mm prev
    /\ Index.ProductRow.height_mm r = Index.ProductRow.height_mm prev
    /\ Index.ProductRow.weight_g r = Index.ProductRow.weight_g prev
    /\ Index.ProductRow.attr_hash r = Index.ProductRow.attr_hash prev
    /\ Index.ProductRow.offer_id r = item_offer_id it
    /\ Index.ProductRow.product_id r = oget it "id" ||| oget it "product_id" ||| VInt 0
    /\ Index.ProductRow.name r = oget it "name" ||| VStr ""
    /\ Index.ProductRow.updated_at r = oget it "updated_at" ||| oget it "updatedAt" ||| VStr "".
Proof.
  intros Ho Ht Hs Hmode Hu He.
  exists (Index.fast_row (item_offer_id it) it (oget it "name" ||| VStr "")
            (oget it "updated_at" ||| oget it "updatedAt" ||| VStr "") prev).
  split; [|repeat split].
  unfold Index.reconcile.
  assert (o = oget it "offer_id").
  { unfold get in Ho. destruct (nullish it); congruence. }
  subst o. rewrite Ho. simpl. fold (item_offer_id it).
  rewrite Ht. simpl. rewrite Hs.
  unfold Index.fast_path.
  rewrite (strict_eq_truthy _ _ He), Hu, He, Hmode. reflexivity.
Qed.

(** The mug, unchanged since its baseline was taken. *)
Lemma fast_path_witness :
  exists r,
    Index.reconcile cfg_dimensions [(baseline_A, "before")] [] item_A
                    (Index.mkProgress [] [])
      = Ok (Continue, Index.mkProgress ([] ++ [r]) [])
    /\ Index.ProductRow.dim_hash r = VStr (sizeFingerprint dims_A)
    /\ Index.ProductRow.depth_mm r = VInt 100
    /\ Index.ProductRow.width_mm r = VInt 50
    /\ Index.ProductRow.height_mm r = VInt 20
    /\ Index.ProductRow.weight_g r = VInt 300
    /\ Index.ProductRow.attr_hash r = VNull
    /\ Index.ProductRow.offer_id r = item_offer_id item_A
    /\ Index.ProductRow.product_id r = oget item_A "id" ||| oget item_A "product_id" ||| VInt 0
    /\ Index.ProductRow.name r = oget item_A "name" ||| VStr ""
    /\ Index.ProductRow.updated_at r
       = oget item_A "updated_at" ||| oget item_A "updatedAt" ||| VStr "".
Proof.
  apply (fast_path_carries_dimensions cfg_dimensions [(baseline_A, "before")] []
           item_A (VStr "A") (Index.mkProgress [] []) baseline_A "before");
    reflexivity.
Defined.

(** Claim C4 as stated fails.  The row committed on the early exit has the
    name and the product identifier of the incoming record, not the prior
    ones; and two dates that are equal because both are missing do not take
    the early exit: the dimensions are computed again and a change is
    notified. *)
Lemma fast_path_rewrites_name_and_needs_a_timestamp :
  (* same modification time, dimensions-only mode: the row committed for A
     has the name and product of the incoming record *)
  strict_eq (Index.ProductRow.updated_at baseline_A) (oget item_A "updated_at") = true
  /\ Index.processBatch cfg_dimensions (post_info [item_A]) "now"
                        [(baseline_A, "before")] [VStr "A"]
     = Index.mkOutcome (Ok tt)
         [(Index.ProductRow.mk (VStr "A") (VInt 7) (VStr "Mug, new name")
                        (VStr "2024-05-01T10:00:00Z")
                        (VStr (sizeFingerprint dims_A))
                        (VInt 100) (VInt 50) (VInt 20) (VInt 300) VNull, "now")]
         []
  /\ Index.ProductRow.name baseline_A <> VStr "Mug, new name"
  /\ Index.ProductRow.product_id baseline_A <> VInt 7
  (* the same (empty) modification time on both sides: recomputed, notified *)
  /\ strict_eq (Index.ProductRow.updated_at baseline_C)
               (oget item_C "updated_at" ||| oget item_C "updatedAt" ||| VStr "") = true
  /\ Index.notified
       (Index.processBatch cfg_dimensions (post_info [item_C]) "now"
                           [(baseline_C, "before")] [VStr "C"])
     = [DimDiff (VStr "C") item_C dims_A
                (mkDims (VNum (Fin 12000 2)) (VNum (Fin 5000 2))
                        (VNum (Fin 2000 2)) (VNum (Fin 3000 1)))].
Proof.
  split; [reflexivity|]. split; [vm_compute; reflexivity|].
  split; [discriminate|]. split; [discriminate|].
  split; [reflexivity|]. vm_compute; reflexivity.
Qed.

(** main.js has no early exit: the same date, and the change is seen. *)
Lemma main_has_no_fast_path :
  Main.notified
    (Main.processBatch cfg_dimensions (post_info [item_C_same_time]) "now"
                       [(main_baseline_C, "before")] [VStr "C"])
  = [DimDiff (VStr "C") item_C_same_time dims_A
             (mkDims (VNum (Fin 12000 2)) (VNum (Fin 5000 2))
                     (VNum (Fin 2000 2)) (VNum (Fin 3000 1)))].
Proof. vm_compute; reflexivity. Qed.

(* ------------------------------------------------------------------ *)
(** ** Failures of the attribute fetch *)


Lemma own_errors_Ok {A : Type} (a : A) : own_errors (Ok a).
Proof. intros e H. discriminate. Qed.

Lemma own_errors_TypeError {A : Type} : own_errors (@Raise A TypeError).
Proof. intros e H. congruence. Qed.

Lemma own_errors_bind {A B : Type} (c : result A) (k : A -> result B) :
  own_errors c -> (forall a, own_errors (k a)) -> own_errors (rbind c k).
Proof.
  intros Hc Hk e. destruct c as [a|e']; simpl.
  - apply Hk.
  - intros H. apply Hc. congruence.
Qed.

Lemma own_errors_if {A : Type} (b : bool) (c1 c2 : result A) :
  own_errors c1 -> own_errors c2 -> own_errors (if b then c1 else c2).
Proof. destruct b; auto. Qed.

Ltac own :=
  repeat match goal with
    | |- own_errors (Ok _) => apply own_errors_Ok
    | |- own_errors (Raise TypeError) => apply own_errors_TypeError
    | |- own_errors (rbind _ _) => apply own_errors_bind; [|intros ?]
    | |- own_errors (if _ then _ else _) => apply own_errors_if
    end.

Lemma get_own (v : value) (k : string) : own_errors (get v k).
Proof. unfold get. own. Qed.

Lemma call_toLowerCase_own (v : value) : own_errors (call_toLowerCase v).
Proof. destruct v; simpl; own. Qed.


Lemma as_array_own (v : value) : own_errors (as_array v).
Proof. destruct v; simpl; own. Qed.

Lemma mm_own (val unit : value) : own_errors (mm val unit).
Proof. unfold mm. own. apply call_toLowerCase_own. Qed.

Lemma grams_own (val unit : value) : own_errors (grams val unit).
Proof. unfold grams. own. apply call_toLowerCase_own. Qed.

Lemma maybe_own (obj : value) : own_errors (maybe obj).
Proof. unfold maybe. own; auto using mm_own, grams_own. Qed.




Lemma by_offer_own (items : list value) : own_errors (by_offer items).
Proof. induction items as [|x items IH]; simpl; own; auto using get_own. Qed.









(* ------------------------------------------------------------------ *)
(** ** The scheduler of main.js *)

(** Claim C9.  While a scan is in progress a tick only writes a line in the
    log: the table and the notifications are as they were and the flag
    stays up.  The tick is not kept: the scan settles as if it had not
    come.  Whether the scan completes or fails the flag is down afterwards,
    and the next tick starts a scan. *)
Theorem overlapping_tick_is_dropped
        (fuel : nat) (cfg : config) (post : ozon) (now : string) (s : Main.scheduler) :
  Main.isScanning s = true ->
  (* the tick leaves a line in the log, and nothing else *)
  Main.step fuel cfg post now s Main.Tick
    = Main.mkScheduler true (Main.db s) (Main.outbox s)
                       (Main.log s ++ [Main.skip_overlap])
  (* it is not kept for later: the scan settles as if it had not come *)
  /\ (forall r,
        Main.scanOnce fuel cfg post now (Main.db s) = Some r ->
        let quiet := Main.step fuel cfg post now s Main.Settled in
        let after := Main.step fuel cfg post now
                       (Main.step fuel cfg post now s Main.Tick) Main.Settled in
        Main.db after = Main.db quiet
        /\ Main.outbox after = Main.outbox quiet
        (* whatever the scan came to, the scheduler is idle again *)
        /\ Main.isScanning quiet = false
        /\ Main.isScanning after = false
        (* and the next tick starts a scan *)
        /\ Main.step fuel cfg post now after Main.Tick
           = Main.mkScheduler true (Main.db after) (Main.outbox after)
                              (Main.log after ++ [Main.tick_start])).
Proof.
  intros Hs. split.
  - unfold Main.step, Main.tick_enter. now rewrite Hs.
  - intros r Hr. cbv zeta.
    unfold Main.step, Main.tick_enter. rewrite Hs. cbn [Main.isScanning Main.db].
    rewrite Hr. unfold Main.tick_resume.
    destruct (Main.scan_status r); cbn; auto 10.
Qed.

(** A tick during the scan of a shop of two offers, and the scan settling
    after it. *)
Lemma overlapping_tick_witness :
  Main.step 3 cfg_dimensions post_shop "now" scanning Main.Tick
  = Main.mkScheduler true [(stored_A, "before")] [] [Main.tick_start; Main.skip_overlap]
  /\ Main.isScanning
       (Main.step 3 cfg_dimensions post_shop "now"
          (Main.step 3 cfg_dimensions post_shop "now" scanning Main.Tick)
          Main.Settled) = false.
Proof.
  destruct (overlapping_tick_is_dropped 3 cfg_dimensions post_shop "now" scanning
              eq_refl) as [Htick Hsettle].
  split; [exact Htick|].
  assert (E : exists r,
    Main.scanOnce 3 cfg_dimensions post_shop "now" (Main.db scanning) = Some r)
    by (eexists; vm_compute; reflexivity).
  destruct E as [r E].
  exact (proj1 (proj2 (proj2 (proj2 (Hsettle r E))))).
Defined.

(* ================================================================== *)
(** * Further properties of the code *)

(* ------------------------------------------------------------------ *)
(** ** More on unit normalisation *)



Lemma lowercase_unit (unit : value) (u : string) :
  call_toLowerCase (unit ||| VStr "") = Ok u ->
  forall e, call_toLowerCase (unit ||| VStr "") <> Raise e.
Proof. intros -> e. discriminate. Qed.





Lemma unit_raises (unit : value) :
  (exists e, call_toLowerCase (unit ||| VStr "") = Raise e)
  <-> truthy unit = true /\ ~ is_string unit.
Proof.
  unfold or_else, is_string. split.
  - intros [e He]. destruct (truthy unit) eqn:T.
    + split; auto. intros [s ->]. discriminate.
    + discriminate.
  - intros [T Hs]. rewrite T. destruct unit; simpl; eauto.
    exfalso. apply Hs. eauto.
Qed.

(** X3. [mm] and [grams] give [null] exactly for a value that is absent
    ([null], [undefined]) or is not a finite number, whatever the unit; and
    they raise exactly when the value is a finite number and the unit is
    something truthy that is not a string (a number, an object), the error
    being a [TypeError]. *)
Theorem normalisation_null_and_failure (val unit : value) :
  (mm val unit = Ok VNull <-> nullish val = true \/ isFinite (Number val) = false)
  /\ (grams val unit = Ok VNull <-> nullish val = true \/ isFinite (Number val) = false)
  /\ ((exists e, mm val unit = Raise e)
      <-> nullish val = false /\ isFinite (Number val) = true
          /\ truthy unit = true /\ ~ is_string unit)
  /\ ((exists e, grams val unit = Raise e)
      <-> nullish val = false /\ isFinite (Number val) = true
          /\ truthy unit = true /\ ~ is_string unit)
  /\ (forall e, mm val unit = Raise e \/ grams val unit = Raise e -> e = TypeError).
Proof.
  pose proof (unit_raises unit) as Hu.
  pose proof (call_toLowerCase_own (unit ||| VStr "")) as Hown.
  unfold mm, grams.
  destruct (nullish val) eqn:Hn; cbn [negb].
  { split; [tauto|]. split; [tauto|].
    split; [split; [intros [e He]; discriminate|intros (? & _); discriminate]|].
    split; [split; [intros [e He]; discriminate|intros (? & _); discriminate]|].
    intros e [He|He]; discriminate. }
  destruct (isFinite (Number val)) eqn:Hf; cbn [negb].
  2:{ split; [tauto|]. split; [tauto|].
      split; [split; [intros [e He]; discriminate|intros (_ & ? & _); discriminate]|].
      split; [split; [intros [e He]; discriminate|intros (_ & ? & _); discriminate]|].
      intros e [He|He]; discriminate. }
  destruct (call_toLowerCase (unit ||| VStr "")) as [u|e0] eqn:Hc; cbn [rbind].
  - assert (Hno : ~ (truthy unit = true /\ ~ is_string unit)).
    { intros H. apply Hu in H. destruct H as [e He]. discriminate. }
    assert (M : forall r, (if String.eqb u "mm" || String.eqb u ""
                           then Ok (VNum (toFixed 2 (Number val)))
                           else if String.eqb u "cm"
                                then Ok (VNum (toFixed 2 (num_mul (Number val) 10)))
                                else if String.eqb u "m"
                                     then Ok (VNum (toFixed 2 (num_mul (Number val) 1000)))
                                     else Ok (VNum (Number val))) = r ->
                          exists x, r = Ok (VNum x)).
    { intros r <-.
      repeat match goal with |- context [if ?b then _ else _] => destruct b end; eauto. }
    assert (G : forall r, (if String.eqb u "g" || String.eqb u ""
                           then Ok (VNum (toFixed 1 (Number val)))
                           else if String.eqb u "kg"
                                then Ok (VNum (toFixed 1 (num_mul (Number val) 1000)))
                                else Ok (VNum (Number val))) = r ->
                          exists x, r = Ok (VNum x)).
    { intros r <-.
      repeat match goal with |- context [if ?b then _ else _] => destruct b end; eauto. }
    split; [split; [intros H; apply M in H; destruct H; discriminate
                   |intros [H|H]; discriminate]|].
    split; [split; [intros H; apply G in H; destruct H; discriminate
                   |intros [H|H]; discriminate]|].
    split; [split; [intros [e H]; apply M in H; destruct H; discriminate
                   |intros (_ & _ & H1 & H2); exfalso; apply Hno; auto]|].
    split; [split; [intros [e H]; apply G in H; destruct H; discriminate
                   |intros (_ & _ & H1 & H2); exfalso; apply Hno; auto]|].
    intros e [H|H]; [apply M in H|apply G in H]; destruct H; discriminate.
  - assert (Hyes : truthy unit = true /\ ~ is_string unit).
    { apply Hu. eauto. }
    assert (e0 = TypeError) as -> by (now apply Hown).
    split; [split; [discriminate|intros [H|H]; discriminate]|].
    split; [split; [discriminate|intros [H|H]; discriminate]|].
    split; [split; [tauto|eauto]|].
    split; [split; [tauto|eauto]|].
    intros e [He|He]; congruence.
Qed.

(* ------------------------------------------------------------------ *)
(** ** More on the extraction of dimensions *)

Lemma rbind_Ok {A : Type} (c : result A) : (let* x := c in Ok x) = c.
Proof. now destruct c. Qed.

Lemma mm_of_nothing (val unit : value) : nullish val = true -> mm val unit = Ok VNull.
Proof. intros H. unfold mm. now rewrite H. Qed.

Lemma grams_of_nothing (val unit : value) :
  nullish val = true -> grams val unit = Ok VNull.
Proof. intros H. unfold grams. now rewrite H. Qed.

(** X4. An info record that has none of [depth], [width], [height] and
    [weight] at its top level (absent or [null]) takes its dimensions from
    the nested object, the first truthy one of [dimensions], [dimension] and
    [package_dimensions] (an empty object when there is none): both
    [extractDims] of index.js and [extractDimsFromInfo] of main.js return
    what the nested object yields, failure included. *)
Theorem nested_dimensions_as_fallback (it : value) :
  nullish it = false ->
  nullish (oget it "depth") = true ->
  nullish (oget it "width") = true ->
  nullish (oget it "height") = true ->
  nullish (oget it "weight") = true ->
  extractDims it = maybe (nested_of it)
  /\ Main.extractDimsFromInfo it = maybe (nested_of it).
Proof.
  intros Hit Hd Hw Hh Hg.
  assert (H1 : maybe (direct_of it) = Ok (mkDims VNull VNull VNull VNull)).
  { unfold maybe, direct_of. cbn [oget lookup_field String.eqb Ascii.eqb Bool.eqb].
    assert (Hc : nullish (oget it "depth" ??? VUndef ??? VUndef) = true).
    { unfold coalesce. rewrite Hd. reflexivity. }
    rewrite (mm_of_nothing _ _ Hc), (mm_of_nothing _ _ Hw), (mm_of_nothing _ _ Hh),
      (grams_of_nothing _ _ Hg).
    reflexivity. }
  unfold extractDims, Main.extractDimsFromInfo, get. rewrite Hit, H1.
  cbn [rbind non_null_fields depth_mm width_mm height_mm weight_g filter nullish negb
       List.length Nat.eqb].
  split; apply rbind_Ok.
Qed.

Lemma nested_dimensions_witness :
  extractDims (VObj [("offer_id", VStr "A");
                     ("dimensions", VObj [("length", VInt 3); ("unit", VStr "cm")])])
  = Ok (mkDims (VNum (Fin 3000 2)) VNull VNull VNull).
Proof.
  rewrite (proj1 (nested_dimensions_as_fallback
                    (VObj [("offer_id", VStr "A");
                           ("dimensions", VObj [("length", VInt 3); ("unit", VStr "cm")])])
                    eq_refl eq_refl eq_refl eq_refl eq_refl)).
  reflexivity.
Defined.

(* ------------------------------------------------------------------ *)
(** ** More on batches *)

Lemma chunk_count {A : Type} (arr : list A) (n : nat) :
  (0 < n)%nat ->
  List.length (chunk arr n) = ((List.length arr + (n - 1)) / n)%nat.
Proof.
  intros Hn. rewrite chunk_spec, length_map.
  assert (G : forall L,
    exists q,
      List.length (filter (fun i => ((n =? 0) || (i mod n =? 0))%nat) (seq 0 L)) = q
      /\ (L <= q * n < L + n)%nat).
  { induction L as [|L (q & Hc & Hq)].
    - exists O. simpl. split; [reflexivity|lia].
    - rewrite seq_S, filter_app, length_app, Hc. simpl.
      replace (n =? 0)%nat with false by (symmetry; apply Nat.eqb_neq; lia).
      simpl.
      destruct (L mod n =? 0)%nat eqn:E.
      + apply Nat.eqb_eq in E. apply Nat.Div0.mod_divides in E.
        destruct E as [c Hc'].
        assert (q = c) by nia. subst q.
        exists (S c). simpl. split; [lia|nia].
      + apply Nat.eqb_neq in E.
        exists q. simpl. split; [lia|].
        assert (L <> q * n)%nat.
        { intros ->. apply E. apply Nat.Div0.mod_mul. }
        lia. }
  destruct (G (List.length arr)) as (q & -> & Hq).
  apply Nat.div_unique with (r := (List.length arr + (n - 1) - q * n)%nat); lia.
Qed.

Lemma chunk_nonempty {A : Type} (arr : list A) (n : nat) :
  (0 < n)%nat -> Forall (fun bb => (1 <= List.length bb)%nat) (chunk arr n).
Proof.
  intros Hn. rewrite chunk_spec. apply Forall_forall. intros bb Hin.
  apply in_map_iff in Hin. destruct Hin as (i & <- & Hi).
  apply filter_In in Hi. destruct Hi as [Hi _]. apply in_seq in Hi.
  unfold slice. rewrite length_firstn, length_skipn. lia.
Qed.

(** X5. For a positive [n], [chunk arr n] cuts the array in consecutive
    pieces: put end to end they give the array back, each piece has at
    least one element and at most [n], and there are
    [ceil(arr.length / n)] of them, none for an empty array. *)
Theorem chunk_partitions {A : Type} (arr : list A) (n : nat) :
  (0 < n)%nat ->
  List.concat (chunk arr n) = arr
  /\ Forall (fun bb => (1 <= List.length bb <= n)%nat) (chunk arr n)
  /\ List.length (chunk arr n) = ((List.length arr + (n - 1)) / n)%nat.
Proof.
  intros Hn. split; [now apply chunk_concat|]. split; [|now apply chunk_count].
  pose proof (chunk_lengths arr n) as H1. pose proof (chunk_nonempty arr n Hn) as H2.
  rewrite Forall_forall in *. intros bb Hb. split; auto.
Qed.

Lemma chunk_partitions_witness :
  List.concat (chunk (offers 250) 100) = offers 250
  /\ Forall (fun bb => (1 <= List.length bb <= 100)%nat) (chunk (offers 250) 100)
  /\ List.length (chunk (offers 250) 100) = ((List.length (offers 250) + (100 - 1)) / 100)%nat.
Proof. apply (chunk_partitions (offers 250) 100). lia. Defined.

(* ------------------------------------------------------------------ *)
(** ** More on the products table *)

Lemma strict_eq_sym (a b : value) : strict_eq a b = strict_eq b a.
Proof.
  destruct a, b; simpl; auto.
  - now destruct b, b0.
  - destruct n, n0; simpl; auto. apply Z.eqb_sym.
  - apply String.eqb_sym.
Qed.

Lemma strict_eq_trans (a b c : value) :
  strict_eq a b = true -> strict_eq b c = true -> strict_eq a c = true.
Proof.
  intros H1 H2. rewrite strict_eq_sym in H1. exact (strict_eq_euclid _ _ _ H1 H2).
Qed.

Lemma strict_eq_string (a : string) (v : value) :
  strict_eq (VStr a) v = true -> v = VStr a.
Proof.
  destruct v; simpl; try discriminate. rewrite String.eqb_eq. now intros ->.
Qed.

Section MoreTableFacts.
Variable row : Type.
Variable key : row -> value.

Lemma select_upsert_same (now : string) (r : row) (t : table row) :
  proper_key (key r) ->
  select key (upsert key now r t) (key r) = Some (r, now).
Proof.
  unfold proper_key. intros Hk. induction t as [|[r' seen] t IH]; simpl.
  - now rewrite Hk.
  - destruct (strict_eq (key r') (key r)) eqn:E; simpl.
    + now rewrite Hk.
    + now rewrite E.
Qed.

Lemma select_In (t : table row) (k : value) (r : row) (seen : string) :
  select key t k = Some (r, seen) ->
  In (r, seen) t /\ strict_eq (key r) k = true.
Proof.
  induction t as [|[r' s'] t IH]; simpl; [discriminate|].
  destruct (strict_eq (key r') k) eqn:E.
  - intros H; inversion H; subst. auto.
  - intros H. destruct (IH H). auto.
Qed.

Lemma select_None (t : table row) (k : value) :
  select key t k = None <-> Forall (fun r => strict_eq (key r) k = false) (rows_of t).
Proof.
  unfold rows_of. induction t as [|[r' s'] t IH]; simpl.
  - split; auto.
  - destruct (strict_eq (key r') k) eqn:E.
    + split; [discriminate|]. intros H. inversion H; subst. congruence.
    + rewrite IH. split; [now constructor|]. intros H. now inversion H.
Qed.

Lemma select_equal_keys (t : table row) (k k' : value) :
  strict_eq k k' = true -> select key t k = select key t k'.
Proof.
  intros Hk. induction t as [|[r' s'] t IH]; simpl; auto.
  rewrite IH.
  assert (strict_eq (key r') k = strict_eq (key r') k') as ->; auto.
  destruct (strict_eq (key r') k) eqn:E1, (strict_eq (key r') k') eqn:E2; auto.
  - rewrite (strict_eq_trans _ _ _ E1 Hk) in E2. discriminate.
  - rewrite strict_eq_sym in Hk. rewrite (strict_eq_trans _ _ _ E2 Hk) in E1. discriminate.
Qed.

Lemma rows_upsert (now : string) (r : row) (t : table row) (x : row) :
  In x (rows_of (upsert key now r t)) -> x = r \/ In x (rows_of t).
Proof.
  unfold rows_of. induction t as [|[r' seen] t IH]; simpl.
  - intros [<-|[]]. auto.
  - destruct (strict_eq (key r') (key r)); simpl.
    + intros [<-|H]; auto.
    + intros [<-|H]; auto. destruct (IH H); auto.
Qed.

Lemma rows_txUpsertMany (now : string) (rs : list row) :
  forall (t : table row) (x : row),
    In x (rows_of (txUpsertMany key now rs t)) -> In x rs \/ In x (rows_of t).
Proof.
  unfold txUpsertMany. induction rs as [|r rs IH]; intros t x; simpl; auto.
  intros H. destruct (IH _ _ H) as [H1|H1]; auto.
  destruct (rows_upsert _ _ _ _ H1); auto.
Qed.

Lemma distinct_keys_upsert (now : string) (r : row) (t : table row) :
  distinct_keys key t -> distinct_keys key (upsert key now r t).
Proof.
  induction t as [|[r' seen] t IH]; simpl.
  - intros _. split; auto.
  - intros [Hr' Ht]. destruct (strict_eq (key r') (key r)) eqn:E; simpl.
    + split; auto. rewrite Forall_forall in *. intros x Hx.
      specialize (Hr' x Hx).
      destruct (strict_eq (key r) (key x)) eqn:E'; auto.
      rewrite (strict_eq_trans _ _ _ E E') in Hr'. discriminate.
    + split; auto. rewrite Forall_forall in *. intros x Hx.
      destruct (rows_upsert _ _ _ _ Hx) as [->|Hx']; auto.
Qed.

Lemma distinct_keys_txUpsertMany (now : string) (rs : list row) :
  forall t, distinct_keys key t -> distinct_keys key (txUpsertMany key now rs t).
Proof.
  unfold txUpsertMany. induction rs as [|r rs IH]; intros t Ht; simpl; auto.
  apply IH. now apply distinct_keys_upsert.
Qed.

Lemma upsert_present (now : string) (r : row) (t : table row) :
  select key t (key r) <> None ->
  List.length (upsert key now r t) = List.length t
  /\ forall k, select key (upsert key now r t) k = None <-> select key t k = None.
Proof.
  induction t as [|[r' seen] t IH]; simpl; [congruence|].
  destruct (strict_eq (key r') (key r)) eqn:E; simpl.
  - intros _. split; auto. intros k.
    assert (strict_eq (key r) k = strict_eq (key r') k) as ->;
      [|destruct (strict_eq (key r') k); [split; discriminate|reflexivity]].
    destruct (strict_eq (key r) k) eqn:E1, (strict_eq (key r') k) eqn:E2; auto.
    + rewrite (strict_eq_trans _ _ _ E E1) in E2. discriminate.
    + rewrite (strict_eq_euclid _ _ _ E E2) in E1. discriminate.
  - intros H. destruct (IH H) as [Hl Hs]. split; [now rewrite Hl|].
    intros k. destruct (strict_eq (key r') k); [split; discriminate|apply Hs].
Qed.

Lemma txUpsertMany_present (now : string) (rs : list row) :
  forall t,
    Forall (fun r => select key t (key r) <> None) rs ->
    List.length (txUpsertMany key now rs t) = List.length t
    /\ forall k, select key (txUpsertMany key now rs t) k = None <-> select key t k = None.
Proof.
  unfold txUpsertMany. induction rs as [|r rs IH]; intros t H; simpl.
  - split; [reflexivity|tauto].
  - inversion H as [|? ? Hr Hrs]; subst.
    destruct (upsert_present now r t Hr) as [Hl Hs].
    destruct (IH (upsert key now r t)) as [Hl' Hs'].
    { rewrite Forall_forall in *. intros x Hx. rewrite Hs. now apply Hrs. }
    split; [now rewrite Hl', Hl|]. intros k. now rewrite Hs', Hs.
Qed.

(** X6. Writing and reading back the products table: after
    [txUpsertMany(rows)], the row read for a key is the last of [rows]
    written under it, stamped with the time of the transaction; a key that
    none of [rows] has reads as before, with its old stamp; and no two rows
    of the table come to share a key. *)
Theorem upsert_then_select
        (now : string) (before after : list row) (r : row) (t : table row) :
  proper_key (key r) ->
  Forall (fun r' => strict_eq (key r') (key r) = false) after ->
  select key (txUpsertMany key now (before ++ r :: after) t) (key r) = Some (r, now)
  /\ (forall k,
        Forall (fun r' => strict_eq (key r') k = false) (before ++ r :: after) ->
        select key (txUpsertMany key now (before ++ r :: after) t) k = select key t k)
  /\ (distinct_keys key t ->
      distinct_keys key (txUpsertMany key now (before ++ r :: after) t)).
Proof.
  intros Hk Hafter. split; [|split].
  - unfold txUpsertMany. rewrite fold_left_app. simpl.
    fold (txUpsertMany key now before t).
    fold (txUpsertMany key now after
            (upsert key now r (txUpsertMany key now before t))).
    rewrite select_txUpsertMany_other by exact Hafter.
    now apply select_upsert_same.
  - intros k Hrows. now apply select_txUpsertMany_other.
  - apply distinct_keys_txUpsertMany.
Qed.
End MoreTableFacts.

Lemma upsert_then_select_witness :
  select Main.ProductRow.offer_id
         (txUpsertMany Main.ProductRow.offer_id "now" ([stored_A] ++ blank_A :: [])
                       [(stored_A, "before")])
         (Main.ProductRow.offer_id blank_A)
  = Some (blank_A, "now").
Proof.
  apply (upsert_then_select Main.ProductRow.t Main.ProductRow.offer_id "now" [stored_A] [] blank_A
           [(stored_A, "before")]); [reflexivity|constructor].
Defined.

(* ------------------------------------------------------------------ *)
(** ** The batch of main.js, offer by offer *)

Lemma coalesce_idem (a : value) : (a ??? VNull) ??? VNull = a ??? VNull.
Proof. now destruct a. Qed.

Lemma sizeFingerprint_canonical (d : dims) :
  sizeFingerprint (mkDims (depth_mm d ??? VNull) (width_mm d ??? VNull)
                          (height_mm d ??? VNull) (weight_g d ??? VNull))
  = sizeFingerprint d.
Proof.
  unfold sizeFingerprint, sizeCanonical.
  cbn [depth_mm width_mm height_mm weight_g]. now rewrite !coalesce_idem.
Qed.

Lemma main_reconcile_spec db infoByOffer attrsByOffer o st st' :
  Main.reconcile db infoByOffer attrsByOffer o st = Ok st' ->
  exists d r,
    main_dims infoByOffer attrsByOffer o = Ok d
    /\ Main.upserts st' = Main.upserts st ++ [r]
    /\ Main.ProductRow.offer_id r = o
    /\ main_staged infoByOffer attrsByOffer r
    /\ Main.sent st' =
       Main.sent st ++
       match select Main.ProductRow.offer_id db o with
       | Some (prev, _) =>
           if truthy (Main.ProductRow.dim_hash prev)
              && negb (strict_eq (Main.ProductRow.dim_hash prev) (VStr (sizeFingerprint d)))
           then [DimDiff o (main_info infoByOffer o) (Main.old_dims prev) d]
           else []
       | None => []
       end.
Proof.
  unfold Main.reconcile. fold (main_info infoByOffer o).
  fold (main_dims infoByOffer attrsByOffer o).
  destruct (main_dims infoByOffer attrsByOffer o) as [d|e] eqn:Hd; cbn [rbind];
    [|discriminate].
  intros H. inversion H; subst; clear H. cbn [Main.upserts Main.sent].
  exists d. eexists. split; [reflexivity|]. split; [reflexivity|].
  split; [reflexivity|]. split.
  - exists d. cbn [Main.ProductRow.offer_id Main.ProductRow.dim_hash]. split; [exact Hd|].
    split; [reflexivity|].
    unfold main_row_consistent, Main.old_dims.
    cbn [Main.ProductRow.dim_hash Main.ProductRow.depth_mm Main.ProductRow.width_mm Main.ProductRow.height_mm
         Main.ProductRow.weight_g].
    now rewrite sizeFingerprint_canonical.
  - destruct (select Main.ProductRow.offer_id db o) as [[prev seen]|];
      [|now rewrite app_nil_r].
    destruct (truthy (Main.ProductRow.dim_hash prev)
              && negb (strict_eq (Main.ProductRow.dim_hash prev) (VStr (sizeFingerprint d))));
      [reflexivity|now rewrite app_nil_r].
Qed.

Lemma main_loop_spec db infoByOffer attrsByOffer (offerIds : list value) :
  forall st res st',
    Main.loop db infoByOffer attrsByOffer offerIds st = (res, st') ->
    exists rows msgs,
      Main.upserts st' = Main.upserts st ++ rows
      /\ Main.sent st' = Main.sent st ++ msgs
      /\ Forall (main_staged infoByOffer attrsByOffer) rows
      /\ Forall (main_change_notice db offerIds) msgs
      /\ (res = Ok tt -> map Main.ProductRow.offer_id rows = offerIds).
Proof.
  induction offerIds as [|o rest IH]; intros st res st' H; simpl in H.
  - inversion H; subst. exists [], []. rewrite !app_nil_r. repeat split; auto.
  - destruct (Main.reconcile db infoByOffer attrsByOffer o st) as [st1|e] eqn:E.
    + destruct (main_reconcile_spec _ _ _ _ _ _ E) as (d & r & Hd & Hu & Hid & Hst & Hs).
      destruct (IH _ _ _ H) as (rows & msgs & Hu' & Hs' & Hrows & Hmsgs & Hids).
      exists (r :: rows).
      eexists. split; [rewrite Hu', Hu, <- app_assoc; reflexivity|].
      split; [rewrite Hs', Hs, <- app_assoc; reflexivity|].
      split; [now constructor|]. split.
      * apply Forall_app. split.
        -- destruct (select Main.ProductRow.offer_id db o) as [[prev seen]|] eqn:Hsel;
             [|constructor].
           destruct (truthy (Main.ProductRow.dim_hash prev)) eqn:T; simpl; [|constructor].
           destruct (strict_eq (Main.ProductRow.dim_hash prev) (VStr (sizeFingerprint d))) eqn:Q;
             simpl; constructor; [|constructor].
           exists o, (main_info infoByOffer o), prev, seen, d.
           repeat split; auto. now left.
        -- eapply Forall_impl; [|exact Hmsgs].
           intros m (o' & info & prev & seen & d' & -> & Hin & Hrest).
           exists o', info, prev, seen, d'. repeat split; try tauto. now right.
      * intros Hres. simpl. now rewrite Hid, (Hids Hres).
    + inversion H; subst. exists [], []. rewrite !app_nil_r.
      repeat split; auto. discriminate.
Qed.

Lemma main_notices
        (cfg : config) (post : ozon) (now : string) (db : Main.products)
        (offerIds : list value) :
  Forall (main_change_notice db offerIds)
         (Main.notified (Main.processBatch cfg post now db offerIds)).
Proof.
  unfold Main.processBatch.
  destruct (let* items := as_array (fetch_info post offerIds) in by_offer items)
    as [infoByOffer|e]; cbn [Main.notified]; [|constructor].
  destruct (Main.fetch_attrs cfg post offerIds) as [attrsByOffer|e];
    cbn [Main.notified]; [|constructor].
  destruct (Main.loop db infoByOffer attrsByOffer offerIds (Main.mkProgress [] []))
    as [res st] eqn:E.
  destruct (main_loop_spec _ _ _ _ _ _ _ E) as (rows & msgs & _ & Hs & _ & Hm & _).
  simpl in Hs. subst msgs.
  destruct res; cbn [Main.notified]; exact Hm.
Qed.

(** X7. main.js only ever reports changes of dimensions, in every tracking
    mode: each notification of a batch is a dimension-change message, about
    an identifier of the batch that has a row in the table, with a
    non-empty fingerprint other than the one just computed. An offer seen
    for the first time is stored in silence, and no attribute-change
    message is ever sent. *)
Theorem main_notifies_changes_of_stored_offers
        (cfg : config) (post : ozon) (now : string) (db : Main.products)
        (offerIds : list value) :
  Forall (main_change_notice db offerIds)
         (Main.notified (Main.processBatch cfg post now db offerIds)).
Proof. apply main_notices. Qed.

Lemma select_txUpsertMany_written {row : Type} (key : row -> value) (now : string)
      (k : value) (rs : list row) :
  forall t,
    Exists (fun r => strict_eq (key r) k = true) rs ->
    exists r, In r rs /\ strict_eq (key r) k = true
              /\ select key (txUpsertMany key now rs t) k = Some (r, now).
Proof.
  induction rs as [|r rs IH] using rev_ind; intros t H.
  - inversion H.
  - unfold txUpsertMany. rewrite fold_left_app. simpl.
    fold (txUpsertMany key now rs t).
    destruct (strict_eq (key r) k) eqn:E.
    + exists r. split; [apply in_or_app; right; now left|]. split; auto.
      rewrite <- (select_equal_keys _ key _ _ _ E).
      apply select_upsert_same. unfold proper_key.
      apply (strict_eq_trans _ _ _ E). now rewrite strict_eq_sym.
    + apply Exists_app in H. destruct H as [H|H].
      * destruct (IH t H) as (r' & Hin & Hk & Hsel).
        exists r'. split; [apply in_or_app; now left|]. split; auto.
        rewrite select_upsert_other by exact E. exact Hsel.
      * inversion H as [? ? H1|? ? H1]; subst; [congruence|inversion H1].
Qed.

Lemma main_batch_outcome
        (cfg : config) (post : ozon) (now : string) (db : Main.products)
        (offerIds : list value) :
  match Main.status (Main.processBatch cfg post now db offerIds) with
  | Ok _ =>
      forall offer_id,
        In offer_id offerIds -> proper_key offer_id ->
        exists r,
          select Main.ProductRow.offer_id
                 (Main.db_after (Main.processBatch cfg post now db offerIds)) offer_id
          = Some (r, now)
          /\ strict_eq (Main.ProductRow.offer_id r) offer_id = true
          /\ main_row_consistent r
  | Raise _ => Main.db_after (Main.processBatch cfg post now db offerIds) = db
  end.
Proof.
  unfold Main.processBatch.
  destruct (let* items := as_array (fetch_info post offerIds) in by_offer items)
    as [infoByOffer|e]; cbn [Main.status Main.db_after]; [|reflexivity].
  destruct (Main.fetch_attrs cfg post offerIds) as [attrsByOffer|e];
    cbn [Main.status Main.db_after]; [|reflexivity].
  destruct (Main.loop db infoByOffer attrsByOffer offerIds (Main.mkProgress [] []))
    as [res st] eqn:E.
  destruct (main_loop_spec _ _ _ _ _ _ _ E) as (rows & msgs & Hu & _ & Hrows & _ & Hids).
  simpl in Hu. destruct res as [[]|e]; cbn [Main.status Main.db_after]; [|reflexivity].
  specialize (Hids eq_refl).
  intros o Hin Hk. unfold Main.commit. rewrite Hu.
  assert (Hex : Exists (fun r => strict_eq (Main.ProductRow.offer_id r) o = true) rows).
  { rewrite <- Hids in Hin. apply in_map_iff in Hin. destruct Hin as (r & <- & Hr).
    apply Exists_exists. exists r. split; auto. }
  destruct rows as [|r0 rows']; [inversion Hex|]. cbn [is_empty].
  destruct (select_txUpsertMany_written Main.ProductRow.offer_id now o (r0 :: rows') db Hex)
    as (r & Hr & Hk' & Hsel).
  exists r. split; [exact Hsel|]. split; [exact Hk'|].
  rewrite Forall_forall in Hrows. destruct (Hrows r Hr) as (d & _ & _ & Hc). exact Hc.
Qed.

(** X8. A batch of main.js that ends without an error has stored every
    offer of the batch: for each identifier (equal to itself, as every
    string is) the table holds a row written in this transaction, whose
    fingerprint is the one of the dimensions stored beside it. A batch that
    fails commits nothing: the table is as it was. *)
Theorem main_batch_is_stored_or_dropped
        (cfg : config) (post : ozon) (now : string) (db : Main.products)
        (offerIds : list value) :
  match Main.status (Main.processBatch cfg post now db offerIds) with
  | Ok _ =>
      forall offer_id,
        In offer_id offerIds -> proper_key offer_id ->
        exists r,
          select Main.ProductRow.offer_id
                 (Main.db_after (Main.processBatch cfg post now db offerIds)) offer_id
          = Some (r, now)
          /\ strict_eq (Main.ProductRow.offer_id r) offer_id = true
          /\ main_row_consistent r
  | Raise _ => Main.db_after (Main.processBatch cfg post now db offerIds) = db
  end.
Proof. apply main_batch_outcome. Qed.

(** X9. A second pass over an unchanged catalogue is silent: when a batch
    of main.js has ended without an error, the same batch run again on the
    table it left, with the same answers of Ozon, sends nothing (the
    identifiers being strings). *)
Theorem main_second_pass_is_silent
        (cfg : config) (post : ozon) (now later : string) (db : Main.products)
        (offerIds : list value) :
  Forall is_string offerIds ->
  Main.status (Main.processBatch cfg post now db offerIds) = Ok tt ->
  Main.notified
    (Main.processBatch cfg post later
       (Main.db_after (Main.processBatch cfg post now db offerIds)) offerIds)
  = [].
Proof.
  intros Hstr. unfold Main.processBatch.
  destruct (let* items := as_array (fetch_info post offerIds) in by_offer items)
    as [infoByOffer|e]; cbn [Main.status Main.db_after]; [|discriminate].
  destruct (Main.fetch_attrs cfg post offerIds) as [attrsByOffer|e];
    cbn [Main.status Main.db_after]; [|discriminate].
  destruct (Main.loop db infoByOffer attrsByOffer offerIds (Main.mkProgress [] []))
    as [res st] eqn:E.
  destruct (main_loop_spec _ _ _ _ _ _ _ E) as (rows & msgs & Hu & _ & Hrows & _ & Hids).
  simpl in Hu. destruct res as [[]|e]; cbn [Main.status Main.db_after]; [|discriminate].
  intros _. specialize (Hids eq_refl). rewrite Hu.
  set (db1 := Main.commit now rows db).
  assert (Hsel : forall o, In o offerIds ->
            forall d, main_dims infoByOffer attrsByOffer o = Ok d ->
            exists r seen, select Main.ProductRow.offer_id db1 o = Some (r, seen)
                           /\ Main.ProductRow.dim_hash r = VStr (sizeFingerprint d)).
  { intros o Hin d Hd. unfold db1, Main.commit.
    assert (Hex : Exists (fun r => strict_eq (Main.ProductRow.offer_id r) o = true) rows).
    { rewrite Forall_forall in Hstr. destruct (Hstr o Hin) as [s ->].
      rewrite <- Hids in Hin. apply in_map_iff in Hin. destruct Hin as (r & Hr & Hrin).
      apply Exists_exists. exists r. split; auto. rewrite Hr. simpl.
      apply String.eqb_refl. }
    destruct rows as [|r0 rows']; [inversion Hex|]. cbn [is_empty].
    destruct (select_txUpsertMany_written Main.ProductRow.offer_id now o (r0 :: rows') db Hex)
      as (r & Hr & Hk & Hsel).
    exists r, now. split; [exact Hsel|].
    rewrite Forall_forall in Hrows. destruct (Hrows r Hr) as (d' & Hd' & Hh & _).
    rewrite Forall_forall in Hstr. destruct (Hstr o Hin) as [s ->].
    rewrite strict_eq_sym in Hk. apply strict_eq_string in Hk.
    rewrite Hk in Hd'. rewrite Hh. congruence. }
  clearbody db1.
  assert (G : forall ids st0 res1 st1,
            incl ids offerIds ->
            Main.loop db1 infoByOffer attrsByOffer ids st0 = (res1, st1) ->
            Main.sent st1 = Main.sent st0).
  { induction ids as [|o ids IH]; intros st0 res1 st1 Hincl Hl; simpl in Hl.
    - now inversion Hl.
    - destruct (Main.reconcile db1 infoByOffer attrsByOffer o st0) as [st2|e] eqn:R.
      + destruct (main_reconcile_spec _ _ _ _ _ _ R) as (d & r & Hd & _ & _ & _ & Hs).
        assert (Hin : In o offerIds) by (apply Hincl; now left).
        destruct (Hsel o Hin d Hd) as (p & seen & Hp & Hh).
        rewrite Hp, Hh in Hs. simpl in Hs. rewrite String.eqb_refl in Hs.
        rewrite andb_false_r, app_nil_r in Hs.
        rewrite (IH _ _ _ (fun x Hx => Hincl x (or_intror Hx)) Hl). exact Hs.
      + now inversion Hl. }
  destruct (Main.loop db1 infoByOffer attrsByOffer offerIds (Main.mkProgress [] []))
    as [res1 st1] eqn:E1.
  pose proof (G _ _ _ _ (incl_refl _) E1) as Hs. simpl in Hs.
  destruct res1; cbn [Main.notified]; exact Hs.
Qed.

Lemma main_second_pass_witness :
  Main.notified
    (Main.processBatch cfg_dimensions (post_info [item_A; item_B]) "later"
       (Main.db_after
          (Main.processBatch cfg_dimensions (post_info [item_A; item_B]) "now"
                             [(stored_A, "before")] [VStr "A"; VStr "B"]))
       [VStr "A"; VStr "B"])
  = [].
Proof.
  apply (main_second_pass_is_silent cfg_dimensions (post_info [item_A; item_B])
           "now" "later" [(stored_A, "before")] [VStr "A"; VStr "B"]).
  - repeat constructor; eexists; reflexivity.
  - vm_compute. reflexivity.
Defined.

(* ------------------------------------------------------------------ *)
(** ** Failures of main.js *)

Lemma main_extractDimsFromAttrsRoot_own (item : value) :
  own_errors (Main.extractDimsFromAttrsRoot item).
Proof. unfold Main.extractDimsFromAttrsRoot. own; auto using mm_own, grams_own. Qed.

Lemma main_extractDimsFromInfo_own (it : value) :
  own_errors (Main.extractDimsFromInfo it).
Proof. unfold Main.extractDimsFromInfo. own; auto using get_own, maybe_own. Qed.

Lemma main_reconcile_own db infoByOffer attrsByOffer o st :
  own_errors (Main.reconcile db infoByOffer attrsByOffer o st).
Proof.
  unfold Main.reconcile, Main.dims_of. own.
  - apply main_extractDimsFromAttrsRoot_own.
  - apply main_extractDimsFromInfo_own.
Qed.

Lemma main_loop_own db infoByOffer attrsByOffer (offerIds : list value) :
  forall st, own_errors (fst (Main.loop db infoByOffer attrsByOffer offerIds st)).
Proof.
  induction offerIds as [|o rest IH]; intros st; simpl; [own|].
  pose proof (main_reconcile_own db infoByOffer attrsByOffer o st) as H.
  destruct (Main.reconcile db infoByOffer attrsByOffer o st) as [st'|e]; simpl.
  - apply IH.
  - intros e' He. apply H. congruence.
Qed.

(** X10. The one failure of the network that a batch of main.js lets
    through is the one of the attribute call: when [processBatch] fails
    with the failure of a fetch, the tracking mode asks for attributes and
    it is [fetchAttributesV4] that failed this way. In the mode
    [DIMENSIONS] no answer of Ozon, and no lack of one, fails the batch
    this way. *)
Theorem main_fetch_failure_is_the_attribute_call
        (cfg : config) (post : ozon) (now : string) (db : Main.products)
        (offerIds : list value) (code : Z) :
  Main.status (Main.processBatch cfg post now db offerIds) = Raise (FetchFailed code) ->
  attribute_mode cfg = true
  /\ Main.fetchAttributesV4 post offerIds = Raise (FetchFailed code).
Proof.
  unfold Main.processBatch.
  destruct (let* items := as_array (fetch_info post offerIds) in by_offer items)
    as [infoByOffer|e] eqn:Hi; cbn [Main.status].
  2:{ intros H. exfalso.
      assert (Ho : own_errors (let* items := as_array (fetch_info post offerIds) in
                               by_offer items)).
      { own; auto using as_array_own, by_offer_own. }
      rewrite Hi in Ho. specialize (Ho _ eq_refl). congruence. }
  unfold Main.fetch_attrs.
  destruct (attribute_mode cfg) eqn:Hm.
  - destruct (Main.fetchAttributesV4 post offerIds) as [attrItems|e] eqn:Hf; cbn [rbind].
    + destruct (let* items := as_array attrItems in by_offer items)
        as [attrsByOffer|e] eqn:Ha; cbn [Main.status].
      * pose proof (main_loop_own db infoByOffer attrsByOffer offerIds
                      (Main.mkProgress [] [])) as Hl.
        destruct (Main.loop db infoByOffer attrsByOffer offerIds (Main.mkProgress [] []))
          as [[[]|e] st]; cbn [Main.status]; [discriminate|].
        intros H. exfalso. specialize (Hl e eq_refl). congruence.
      * intros H. exfalso.
        assert (Ho : own_errors (let* items := as_array attrItems in by_offer items)).
        { own; auto using as_array_own, by_offer_own. }
        rewrite Ha in Ho. specialize (Ho _ eq_refl). congruence.
    + cbn [Main.status]. intros H. inversion H; subst. auto.
  - pose proof (main_loop_own db infoByOffer [] offerIds (Main.mkProgress [] [])) as Hl.
    destruct (Main.loop db infoByOffer [] offerIds (Main.mkProgress [] []))
      as [[[]|e] st]; cbn [Main.status]; [discriminate|].
    intros H. exfalso. specialize (Hl e eq_refl). congruence.
Qed.

Lemma main_fetch_failure_witness :
  attribute_mode cfg_both = true
  /\ Main.fetchAttributesV4 (post_no_attributes [item_A; item_B]) [VStr "A"; VStr "B"]
     = Raise (FetchFailed 429).
Proof.
  apply (main_fetch_failure_is_the_attribute_call cfg_both
           (post_no_attributes [item_A; item_B]) "now" [(stored_A, "before")]
           [VStr "A"; VStr "B"] 429).
  vm_compute. reflexivity.
Defined.

(* ------------------------------------------------------------------ *)
(** ** The batch of index.js, record by record *)

Lemma index_reconcile_spec cfg db attrs it st f st' :
  Index.reconcile cfg db attrs it st = Ok (f, st') ->
  exists rows msgs,
    Index.upserts st' = Index.upserts st ++ rows
    /\ Index.sent st' = Index.sent st ++ msgs
    /\ Forall (index_notice cfg db) msgs
    /\ (f = Continue -> Forall (index_restaged db) rows).
Proof.
  unfold Index.reconcile, get.
  destruct (nullish it); cbn [rbind]; [discriminate|].
  fold (item_offer_id it). fold (NOTIFY_ON_NEW cfg).
  destruct (truthy (item_offer_id it)); cbn [negb].
  2:{ intros H; inversion H; subst. exists [], []. rewrite !app_nil_r. repeat split; auto. }
  destruct (select Index.ProductRow.offer_id db (item_offer_id it)) as [[prev seen]|] eqn:Hsel.
  - destruct (Index.fast_path cfg prev _).
    + intros H; inversion H; subst. eexists. exists [].
      cbn [Index.push Index.upserts Index.sent].
      split; [reflexivity|]. split; [now rewrite app_nil_r|]. split; [constructor|].
      intros _. constructor; [|constructor].
      exists prev, seen. cbn [Index.fast_row Index.ProductRow.offer_id]. split; [exact Hsel|].
      unfold index_row_consistent, Index.old_dims. cbn. auto.
    + destruct (extractDims it) as [d|e] eqn:Hd; cbn [rbind]; [|discriminate].
      match goal with
      | |- rbind ?c _ = _ -> _ => destruct c as [attrHash|e] eqn:Ha; cbn [rbind];
                                   [|discriminate]
      end.
      intros H; inversion H; subst; clear H.
      cbn [Index.push Index.upserts Index.sent].
      rewrite !index_upserts_notify_if.
      eexists. eexists. split; [reflexivity|]. split; [|split].
      2:{ instantiate (1 :=
            (if dimensions_mode cfg && truthy (Index.ProductRow.dim_hash prev)
                && negb (strict_eq (Index.ProductRow.dim_hash prev) (VStr (sizeFingerprint d)))
             then [DimDiff (item_offer_id it) it (Index.old_dims prev) d] else [])
            ++
            (if attribute_mode cfg && truthy (Index.ProductRow.attr_hash prev)
                && negb (strict_eq (Index.ProductRow.attr_hash prev) attrHash)
             then [AttrDiff (item_offer_id it) it [] []] else [])).
          apply Forall_app. split.
          - destruct (dimensions_mode cfg) eqn:M; simpl; [|constructor].
            destruct (truthy (Index.ProductRow.dim_hash prev)) eqn:T; simpl; [|constructor].
            destruct (strict_eq (Index.ProductRow.dim_hash prev) (VStr (sizeFingerprint d))) eqn:Q;
              simpl; constructor; [|constructor].
            split; [exact M|]. exists prev, seen. repeat split; auto.
          - destruct (attribute_mode cfg) eqn:M; simpl; [|constructor].
            destruct (truthy (Index.ProductRow.attr_hash prev)) eqn:T; simpl; [|constructor].
            destruct (strict_eq (Index.ProductRow.attr_hash prev) attrHash) eqn:Q;
              simpl; constructor; [|constructor].
            repeat split; auto. exists prev, seen. auto. }
      * unfold Index.notify_if, Index.notifyAll.
        destruct (dimensions_mode cfg && truthy (Index.ProductRow.dim_hash prev)
                  && negb (strict_eq (Index.ProductRow.dim_hash prev) (VStr (sizeFingerprint d))));
          destruct (attribute_mode cfg && truthy (Index.ProductRow.attr_hash prev)
                    && negb (strict_eq (Index.ProductRow.attr_hash prev) attrHash));
          cbn [Index.sent Index.upserts]; rewrite ?app_nil_r, <- ?app_assoc; reflexivity.
      * intros _. constructor; [|constructor].
        exists prev, seen. cbn [Index.ProductRow.offer_id]. split; [exact Hsel|].
        intros _. unfold index_row_consistent, Index.old_dims.
        cbn [Index.ProductRow.dim_hash Index.ProductRow.depth_mm Index.ProductRow.width_mm
             Index.ProductRow.height_mm Index.ProductRow.weight_g].
        now rewrite sizeFingerprint_canonical.
  - destruct (extractDims it) as [d|e] eqn:Hd; cbn [rbind]; [|discriminate].
    intros H; inversion H; subst; clear H.
    cbn [Index.push Index.upserts Index.sent]. rewrite index_upserts_notify_if.
    eexists. exists (if NOTIFY_ON_NEW cfg then [NewProduct (item_offer_id it) it d] else []).
    split; [reflexivity|]. split; [|split].
    + unfold Index.notify_if, Index.notifyAll.
      destruct (NOTIFY_ON_NEW cfg); cbn [Index.sent]; now rewrite ?app_nil_r.
    + destruct (NOTIFY_ON_NEW cfg) eqn:N; constructor; [|constructor].
      split; auto.
    + discriminate.
Qed.

Lemma index_loop_spec cfg db attrs (items : list value) :
  forall st res st',
    Index.loop cfg db attrs items st = (res, st') ->
    exists rows msgs,
      Index.upserts st' = Index.upserts st ++ rows
      /\ Index.sent st' = Index.sent st ++ msgs
      /\ Forall (index_notice cfg db) msgs
      /\ (res = Ok Continue -> Forall (index_restaged db) rows).
Proof.
  induction items as [|it items IH]; intros st res st' H; simpl in H.
  - inversion H; subst. exists [], []. rewrite !app_nil_r. repeat split; auto.
  - destruct (Index.reconcile cfg db attrs it st) as [[f st1]|e] eqn:E.
    + destruct (index_reconcile_spec _ _ _ _ _ _ _ E) as (rows & msgs & Hu & Hs & Hm & Hr).
      destruct f.
      * destruct (IH _ _ _ H) as (rows' & msgs' & Hu' & Hs' & Hm' & Hr').
        exists (rows ++ rows'), (msgs ++ msgs').
        split; [rewrite Hu', Hu; now rewrite app_assoc|].
        split; [rewrite Hs', Hs; now rewrite app_assoc|].
        split; [apply Forall_app; auto|].
        intros Hres. apply Forall_app; auto.
      * inversion H; subst. exists rows, msgs. repeat split; auto; discriminate.
    + inversion H; subst. exists [], []. rewrite !app_nil_r.
      repeat split; auto; discriminate.
Qed.

Lemma index_notices
        (cfg : config) (post : ozon) (now : string) (db : Index.products)
        (offerIds : list value) :
  Forall (index_notice cfg db)
         (Index.notified (Index.processBatch cfg post now db offerIds)).
Proof.
  unfold Index.processBatch.
  destruct (Index.fetch_attrs cfg post offerIds) as [attrsByOffer|e];
    cbn [Index.notified]; [|constructor].
  destruct (iterate (fetch_info post offerIds)) as [items|e];
    cbn [Index.notified]; [|constructor].
  destruct (Index.loop cfg db attrsByOffer items (Index.mkProgress [] []))
    as [res st] eqn:E.
  destruct (index_loop_spec _ _ _ _ _ _ _ E) as (rows & msgs & _ & Hs & Hm & _).
  simpl in Hs. subst msgs.
  destruct res as [[|]|e]; cbn [Index.notified]; exact Hm.
Qed.

(** X11. What index.js sends, and why: a batch sends a dimension-change
    message only when the tracking mode covers dimensions, about a stored
    offer whose non-empty fingerprint is not the one of the dimensions just
    extracted; an attribute-change message only when the mode covers
    attributes, about a stored offer with a non-empty attribute fingerprint,
    and always with two empty lists of attributes; a new-product message
    only when [NOTIFY_ON_NEW_PRODUCT] is [true] (in any case of letters),
    about an offer that has no row. *)
Theorem index_messages_follow_the_mode
        (cfg : config) (post : ozon) (now : string) (db : Index.products)
        (offerIds : list value) :
  Forall (index_notice cfg db)
         (Index.notified (Index.processBatch cfg post now db offerIds)).
Proof. apply index_notices. Qed.

Lemma rows_In {row : Type} (t : table row) (r : row) (seen : string) :
  In (r, seen) t -> In r (rows_of t).
Proof. intros H. unfold rows_of. apply in_map_iff. exists (r, seen). auto. Qed.

(** X12. A batch of index.js never adds a row to the products table: the
    table has as many rows after the batch as before, an identifier that
    had no row has none afterwards, and when every stored fingerprint was
    the one of the dimensions stored beside it, this is still so. (Rows are
    only ever rewritten: the branch for an offer with no row ends the
    batch before the transaction.) *)
Theorem index_batch_adds_no_row
        (cfg : config) (post : ozon) (now : string) (db : Index.products)
        (offerIds : list value) :
  let db' := Index.db_after (Index.processBatch cfg post now db offerIds) in
  List.length db' = List.length db
  /\ (forall k, select Index.ProductRow.offer_id db' k = None
                <-> select Index.ProductRow.offer_id db k = None)
  /\ (Forall index_row_consistent (rows_of db) -> Forall index_row_consistent (rows_of db')).
Proof.
  unfold Index.processBatch.
  destruct (Index.fetch_attrs cfg post offerIds) as [attrsByOffer|e];
    cbn [Index.db_after]; [|tauto].
  destruct (iterate (fetch_info post offerIds)) as [items|e];
    cbn [Index.db_after]; [|tauto].
  destruct (Index.loop cfg db attrsByOffer items (Index.mkProgress [] []))
    as [res st] eqn:E.
  destruct (index_loop_spec _ _ _ _ _ _ _ E) as (rs & msgs & Hu & _ & _ & Hr).
  simpl in Hu. subst rs.
  destruct res as [[|]|e]; cbn [Index.db_after]; try tauto.
  specialize (Hr eq_refl). unfold Index.commit.
  destruct (is_empty (Index.upserts st)); [tauto|].
  destruct (txUpsertMany_present Index.ProductRow.t Index.ProductRow.offer_id now (Index.upserts st) db)
    as [Hl Hs].
  { eapply Forall_impl; [|exact Hr]. intros r (prev & seen & Hp & _). congruence. }
  split; [exact Hl|]. split; [exact Hs|].
  intros Hc. rewrite Forall_forall in *. intros r Hin.
  destruct (rows_txUpsertMany _ _ _ _ _ _ Hin) as [H1|H1]; auto.
  destruct (Hr r H1) as (prev & seen & Hp & Himp). apply Himp. apply Hc.
  apply select_In in Hp. destruct Hp as [Hp _]. eapply rows_In; eauto.
Qed.

(* ------------------------------------------------------------------ *)
(** ** The text of a dimension-change message *)

Lemma strict_eq_same_field (a b : value) :
  strict_eq (a ??? VNull) (b ??? VNull) = true -> same_field a b.
Proof.
  unfold same_field.
  destruct a, b; simpl; try discriminate; auto.
  - destruct b, b0; simpl; auto; discriminate.
  - intros H. right. right. eauto.
  - rewrite String.eqb_eq. intros ->. auto.
Qed.

Lemma diff_line_nil (label unit : string) (old new : value) :
  diff_line label unit old new = [] -> same_field old new.
Proof.
  unfold diff_line. intros H. apply strict_eq_same_field.
  destruct (strict_eq (old ??? VNull) (new ??? VNull)); [reflexivity|discriminate].
Qed.

Lemma diff_lines_nil (oldDims newDims : dims) :
  diff_lines oldDims newDims = [] -> sizeFingerprint oldDims = sizeFingerprint newDims.
Proof.
  unfold diff_lines. intros H.
  apply app_eq_nil in H. destruct H as [H1 H].
  apply app_eq_nil in H. destruct H as [H2 H].
  apply app_eq_nil in H. destruct H as [H3 H4].
  unfold sizeFingerprint. f_equal. apply sizeCanonical_respects.
  repeat split; eapply diff_line_nil; eauto.
Qed.

Lemma changed_fingerprint_lists (h : value) (oldDims newDims : dims) :
  h = VStr (sizeFingerprint oldDims) ->
  strict_eq h (VStr (sizeFingerprint newDims)) = false ->
  diff_lines oldDims newDims <> [].
Proof.
  intros -> Hne Hnil. apply diff_lines_nil in Hnil. rewrite Hnil in Hne.
  simpl in Hne. rewrite String.eqb_refl in Hne. discriminate.
Qed.

(** X13. A dimension-change message always shows a change: when each
    fingerprint of the table is the one of the dimensions stored beside
    it, every such message that a batch sends, of main.js or of index.js,
    has at least one line in the [lines] of [dimDiffMessage], that is a
    field whose old and new values differ. *)
Theorem change_message_lists_a_change
        (cfg : config) (post : ozon) (now : string)
        (mdb : Main.products) (idb : Index.products) (offerIds : list value) :
  Forall main_row_consistent (rows_of mdb) ->
  Forall index_row_consistent (rows_of idb) ->
  Forall lists_a_change (Main.notified (Main.processBatch cfg post now mdb offerIds))
  /\ Forall lists_a_change (Index.notified (Index.processBatch cfg post now idb offerIds)).
Proof.
  intros Hm Hi. split.
  - eapply Forall_impl; [|apply main_notices].
    intros m (o & info & prev & seen & d & -> & _ & Hsel & _ & Hne).
    simpl. apply select_In in Hsel. destruct Hsel as [Hin _].
    apply rows_In in Hin. rewrite Forall_forall in Hm.
    exact (changed_fingerprint_lists _ _ _ (Hm _ Hin) Hne).
  - eapply Forall_impl; [|apply index_notices].
    intros [o it d|o it old d|o it a b|e]; simpl; auto.
    intros (_ & prev & seen & Hsel & -> & _ & _ & Hne).
    apply select_In in Hsel. destruct Hsel as [Hin _].
    apply rows_In in Hin. rewrite Forall_forall in Hi.
    exact (changed_fingerprint_lists _ _ _ (Hi _ Hin) Hne).
Qed.

Lemma change_message_witness :
  Forall lists_a_change
    (Main.notified
       (Main.processBatch cfg_dimensions (post_info [item_C]) "now"
                          [(main_baseline_C, "before")] [VStr "C"]))
  /\ Forall lists_a_change
       (Index.notified
          (Index.processBatch cfg_dimensions (post_info [item_C]) "now"
                              [(baseline_C, "before")] [VStr "C"])).
Proof.
  apply (change_message_lists_a_change cfg_dimensions (post_info [item_C]) "now"
           [(main_baseline_C, "before")] [(baseline_C, "before")] [VStr "C"]);
    repeat constructor.
Defined.

(* ------------------------------------------------------------------ *)
(** ** The listing of the catalogue *)

Lemma iterOffers_yields (cfg : config) (post : ozon) (fuel : nat) :
  forall last_id offers,
    Main.iterOffers fuel cfg post last_id = Some (Ok offers) ->
    Forall yielded_offer offers.
Proof.
  induction fuel as [|fuel IH]; intros last_id offers; cbn [Main.iterOffers];
    [discriminate|].
  destruct (post "/v3/product/list" _) as [data|e]; [|discriminate].
  destruct (negb (truthy (oget _ "length"))).
  { intros H; inversion H. constructor. }
  destruct (iterate _) as [its|e]; [|discriminate].
  assert (Hy : Forall yielded_offer
                 (flat_map
                    (fun it =>
                       if truthy (oget it "offer_id")
                       then [VObj [("offer_id", oget it "offer_id");
                                   ("product_id", oget it "product_id")]]
                       else [])
                    its)).
  { clear. induction its as [|it its IHi]; simpl; [constructor|].
    destruct (truthy (oget it "offer_id")) eqn:T; simpl; auto.
    constructor; auto. split; [exact T|]. exists it. reflexivity. }
  destruct (negb (truthy _) || negb (is_empty (TRACK_OFFER_IDS cfg))).
  { intros H; inversion H; subst. exact Hy. }
  destruct (Main.iterOffers fuel cfg post _) as [[more|e]|] eqn:E; try discriminate.
  intros H; inversion H; subst. apply Forall_app. split; [exact Hy|].
  eapply IH; eauto.
Qed.

Lemma iterOffers_more_fuel (cfg : config) (post : ozon) (fuel : nat) :
  forall last_id r,
    Main.iterOffers fuel cfg post last_id = Some r ->
    Main.iterOffers (S fuel) cfg post last_id = Some r.
Proof.
  induction fuel as [|fuel IH]; intros last_id r; [discriminate|].
  intros H. cbn [Main.iterOffers] in H.
  remember (S fuel) as n eqn:Hn. cbn [Main.iterOffers].
  destruct (post "/v3/product/list" _) as [data|e]; [|exact H].
  destruct (negb (truthy (oget _ "length"))); [exact H|].
  destruct (iterate _) as [its|e]; [|exact H].
  destruct (negb (truthy _) || negb (is_empty (TRACK_OFFER_IDS cfg))); [exact H|].
  destruct (Main.iterOffers fuel cfg post _) as [r'|] eqn:E; [|discriminate].
  apply IH in E. rewrite E. exact H.
Qed.

(** X14. [iterOffers] yields only offers that have an identifier: each
    record it yields is the pair of the [offer_id] and the [product_id] of
    an item of a page, and its [offer_id] is truthy. With a list of
    tracked identifiers it asks for one page and no more, whatever
    [last_id] the answer carries; and a listing that ends within some
    number of pages ends the same way when more are allowed. *)
Theorem iterOffers_yields_identified_offers
        (cfg : config) (post : ozon) (fuel : nat) (last_id : value)
        (r : result (list value)) :
  Main.iterOffers fuel cfg post last_id = Some r ->
  (forall offers, r = Ok offers -> Forall yielded_offer offers)
  /\ (forall more, Main.iterOffers (more + fuel) cfg post last_id = Some r)
  /\ (is_empty (TRACK_OFFER_IDS cfg) = false ->
      Main.iterOffers 1 cfg post last_id = Some r).
Proof.
  intros H. split; [|split].
  - intros offers ->. eapply iterOffers_yields; eauto.
  - induction more as [|more IH]; simpl plus; auto.
    now apply iterOffers_more_fuel.
  - intros Ht. destruct fuel as [|fuel]; [discriminate|].
    cbn [Main.iterOffers] in *. rewrite Ht in *. cbn [negb] in *.
    destruct (post "/v3/product/list" _) as [data|e]; [|exact H].
    destruct (negb (truthy (oget _ "length"))); [exact H|].
    destruct (iterate _) as [its|e]; [|exact H].
    rewrite orb_true_r in *. exact H.
Qed.

Lemma iterOffers_witness :
  (forall offers,
      Ok [VObj [("offer_id", VStr "A"); ("product_id", VInt 7)];
          VObj [("offer_id", VStr "B"); ("product_id", VInt 8)]] = Ok offers ->
      Forall yielded_offer offers)
  /\ (forall more,
        Main.iterOffers (more + 3) (mkConfig "DIMENSIONS" default_patterns None ["A"; "B"])
                        post_shop (VStr "")
        = Some (Ok [VObj [("offer_id", VStr "A"); ("product_id", VInt 7)];
                    VObj [("offer_id", VStr "B"); ("product_id", VInt 8)]]))
  /\ (is_empty (TRACK_OFFER_IDS (mkConfig "DIMENSIONS" default_patterns None ["A"; "B"]))
      = false ->
      Main.iterOffers 1 (mkConfig "DIMENSIONS" default_patterns None ["A"; "B"])
                      post_shop (VStr "")
      = Some (Ok [VObj [("offer_id", VStr "A"); ("product_id", VInt 7)];
                  VObj [("offer_id", VStr "B"); ("product_id", VInt 8)]])).
Proof.
  apply (iterOffers_yields_identified_offers
           (mkConfig "DIMENSIONS" default_patterns None ["A"; "B"]) post_shop 3 (VStr "")).
  reflexivity.
Defined.

(* ------------------------------------------------------------------ *)
(** ** The scan and the scheduler of main.js *)
















(* ------------------------------------------------------------------ *)
(** ** A scan from the listing to the table *)

Lemma select_upsert_stamp {row : Type} (key : row -> value) (now : string)
      (x : row) (t : table row) (k : value) (r : row) :
  select key t k = Some (r, now) ->
  exists r', select key (upsert key now x t) k = Some (r', now).
Proof.
  intros H. destruct (strict_eq (key x) k) eqn:E.
  - exists x. rewrite <- (select_equal_keys _ key _ _ _ E).
    apply select_upsert_same. unfold proper_key.
    apply (strict_eq_trans _ _ _ E). now rewrite strict_eq_sym.
  - exists r. now rewrite select_upsert_other.
Qed.

Lemma select_txUpsertMany_stamp {row : Type} (key : row -> value) (now : string)
      (k : value) (rs : list row) :
  forall t r,
    select key t k = Some (r, now) ->
    exists r', select key (txUpsertMany key now rs t) k = Some (r', now).
Proof.
  unfold txUpsertMany. induction rs as [|x rs IH]; intros t r H; simpl; eauto.
  destruct (select_upsert_stamp key now x t k r H) as [r' Hr']. eauto.
Qed.

Lemma main_processBatch_keeps_stamp cfg post now db b k r :
  select Main.ProductRow.offer_id db k = Some (r, now) ->
  exists r',
    select Main.ProductRow.offer_id (Main.db_after (Main.processBatch cfg post now db b)) k
    = Some (r', now).
Proof.
  intros H. unfold Main.processBatch.
  destruct (let* items := as_array (fetch_info post b) in by_offer items)
    as [infoByOffer|e]; cbn [Main.db_after]; eauto.
  destruct (Main.fetch_attrs cfg post b) as [attrsByOffer|e];
    cbn [Main.db_after]; eauto.
  destruct (Main.loop db infoByOffer attrsByOffer b (Main.mkProgress [] []))
    as [res st].
  destruct res; cbn [Main.db_after]; eauto.
  unfold Main.commit. destruct (is_empty (Main.upserts st)); eauto.
  eapply select_txUpsertMany_stamp; eauto.
Qed.

Lemma main_batch_stored cfg post now db b :
  Main.status (Main.processBatch cfg post now db b) = Ok tt ->
  stored_at now (Main.db_after (Main.processBatch cfg post now db b)) b.
Proof.
  intros Hs o Hin Hk. pose proof (main_batch_outcome cfg post now db b) as H.
  rewrite Hs in H. destruct (H o Hin Hk) as (r & Hr & _). eauto.
Qed.

Lemma run_batches_stores cfg post now (batches : list (list value)) :
  forall st0 db0 out0 db' out' done,
    fold_left
      (fun acc b =>
         let '(st, db, out) := acc in
         let r := Main.processBatch cfg post now db b in
         (match st with
          | Ok _ => Main.status r
          | Raise e => Raise e
          end, Main.db_after r, out ++ Main.notified r))
      batches (st0, db0, out0) = (Ok tt, db', out') ->
    stored_at now db0 done ->
    st0 = Ok tt /\ stored_at now db' (done ++ List.concat batches).
Proof.
  induction batches as [|b batches IH]; intros st0 db0 out0 db' out' done H Hd;
    simpl in H.
  - inversion H; subst. simpl. now rewrite app_nil_r.
  - destruct (IH _ _ _ _ _ (done ++ b) H) as [Hst Hall].
    + intros o Hin Hk. apply in_app_or in Hin. destruct Hin as [Hin|Hin].
      * destruct (Hd o Hin Hk) as [r Hr].
        eapply main_processBatch_keeps_stamp; eauto.
      * destruct st0 as [[]|e].
        -- (* the status so far is the one of this batch *)
           assert (Hb : Main.status (Main.processBatch cfg post now db0 b) = Ok tt).
           { clear -H IH. destruct (IH _ _ _ _ _ [] H) as [Hs _]; auto.
             intros o [] _. }
           exact (main_batch_stored cfg post now db0 b Hb o Hin Hk).
        -- exfalso. clear -H IH. destruct (IH _ _ _ _ _ [] H) as [Hs _].
           ++ intros o [] _.
           ++ discriminate.
    + split.
      * destruct st0 as [[]|e]; auto.
      * simpl. now rewrite app_assoc.
Qed.

(** X17. A scan of main.js that ends without an error has stored the whole
    listing: every offer that [iterOffers] yielded (whose identifier is
    equal to itself, as every string is) has a row under its identifier,
    written during this scan. *)
Theorem successful_scan_stores_the_catalogue
        (fuel : nat) (cfg : config) (post : ozon) (now : string)
        (db : Main.products) (r : Main.scan) (offers : list value) :
  Main.scanOnce fuel cfg post now db = Some r ->
  Main.scan_status r = Ok tt ->
  Main.iterOffers fuel cfg post (VStr "") = Some (Ok offers) ->
  forall o,
    In o offers -> proper_key (oget o "offer_id") ->
    exists row,
      select Main.ProductRow.offer_id (Main.scan_db r) (oget o "offer_id") = Some (row, now)
      /\ strict_eq (Main.ProductRow.offer_id row) (oget o "offer_id") = true.
Proof.
  intros Hscan Hok Hiter o Hin Hk. unfold Main.scanOnce in Hscan.
  rewrite Hiter in Hscan.
  destruct offers as [|o0 offers']; [inversion Hin|]. cbn [is_empty] in Hscan.
  set (offers := o0 :: offers') in *.
  unfold Main.run_batches in Hscan.
  match type of Hscan with
  | context [fold_left ?F ?B ?A] => destruct (fold_left F B A) as [[st db'] out] eqn:E
  end.
  destruct st as [[]|e]; inversion Hscan; subst r; clear Hscan;
    cbn [Main.scan_status Main.scan_db] in *; [|discriminate].
  destruct (run_batches_stores _ _ _ _ _ _ _ _ _ [] E) as [_ Hall].
  { intros x [] _. }
  cbn [app] in Hall. rewrite chunk_concat in Hall by lia.
  destruct (Hall (oget o "offer_id")) as [row Hrow]; auto.
  { apply in_map_iff. exists o. auto. }
  exists row. split; [exact Hrow|].
  apply select_In in Hrow. tauto.
Qed.

Lemma successful_scan_witness :
  exists r row,
    Main.scanOnce 3 cfg_dimensions post_shop "now" [(stored_A, "before")] = Some r
    /\ select Main.ProductRow.offer_id (Main.scan_db r) (VStr "B") = Some (row, "now").
Proof.
  assert (E : exists r,
             Main.scanOnce 3 cfg_dimensions post_shop "now" [(stored_A, "before")] = Some r
             /\ Main.scan_status r = Ok tt).
  { eexists. split; vm_compute; reflexivity. }
  destruct E as (r & E & S).
  destruct (successful_scan_stores_the_catalogue 3 cfg_dimensions post_shop "now"
              [(stored_A, "before")] r
              [VObj [("offer_id", VStr "A"); ("product_id", VInt 7)];
               VObj [("offer_id", VStr "B"); ("product_id", VInt 8)]]
              E S eq_refl
              (VObj [("offer_id", VStr "B"); ("product_id", VInt 8)])
              (or_intror (or_introl eq_refl)) eq_refl) as (row & Hrow & _).
  exists r, row. split; assumption.
Defined.

(* ------------------------------------------------------------------ *)
(** ** The maps of records by offer *)

Lemma by_offer_map (items : list value) :
  Forall (fun x => nullish x = false) items ->
  by_offer items = Ok (map (fun x => (oget x "offer_id", x)) items).
Proof.
  induction 1 as [|x items Hx _ IH]; simpl; auto.
  unfold get. rewrite Hx. cbn [rbind]. rewrite IH. reflexivity.
Qed.

Lemma find_map {A B : Type} (f : A -> B) (p : B -> bool) (l : list A) :
  find p (map f l) = option_map f (find (fun x => p (f x)) l).
Proof.
  induction l as [|x l IH]; simpl; auto. destruct (p (f x)); auto.
Qed.

(** X18. The map that [processBatch] builds from the fetched records gives
    for an identifier the last record of the answer whose [offer_id] is
    that identifier (by the equality of [Map]), and [undefined] when there
    is none; it is built whenever no record of the answer is [null] or
    [undefined], and fails with a [TypeError] otherwise. *)
Theorem lookup_by_offer_id (items : list value) :
  (Forall (fun x => nullish x = false) items ->
   exists m,
     by_offer items = Ok m
     /\ forall k,
          Map_get m k
          = match find (fun x => same_value_zero (oget x "offer_id") k) (rev items) with
            | Some x => x
            | None => VUndef
            end)
  /\ (Exists (fun x => nullish x = true) items -> by_offer items = Raise TypeError).
Proof.
  split.
  - intros H. eexists. split; [now apply by_offer_map|].
    intros k. unfold Map_get. rewrite <- map_rev, find_map. cbn [fst].
    destruct (find _ (rev items)); reflexivity.
  - induction items as [|x items IH]; intros H; [inversion H|].
    simpl. unfold get. destruct (nullish x) eqn:Hx; cbn [rbind]; [reflexivity|].
    inversion H as [? ? H1|? ? H1]; subst; [congruence|].
    now rewrite (IH H1).
Qed.

(* ------------------------------------------------------------------ *)
(** ** The log of main.js keeps no secret *)




